(** * unredact.py: a shallow embedding and its properties

    The program walks a directory for PDF files, extracts the text layer
    of every page with PyMuPDF ([fitz]) and writes one text file per PDF
    under an output root.  Everything the script touches lives outside of
    it (the file system, the PDF library, the thread pool), so the
    embedding makes that world explicit:

    - Python [str] values are lists of code points ([pystr]);
    - resolved [pathlib] paths are lists of components ([path]);
    - the file system is a finite map from paths to nodes, and a journal
      keeps track of what was done to it;
    - statements that may raise run in a state-and-exception monad [M]
      over [world]; the state survives a raise, as it does in Python;
    - the thread pool is a [scheduler] that picks the order in which the
      per-file tasks take effect; every task runs atomically. *)

From stdpp Require Import gmap list strings.
From Stdlib Require Import NArith ZArith Lia.

Local Open Scope N_scope.

(** ** Python strings *)

Abbreviation pystr := (list N).

(** A literal: one code point per character. *)
Definition str (s : string) : pystr :=
  map Ascii.N_of_ascii (String.list_ascii_of_string s).

#[global] Arguments str _ : simpl never.

Definition nl : pystr := [10].

(** [str.isspace] for one character, as CPython's [_PyUnicode_IsWhitespace]
    lists them. *)
Definition is_space (c : N) : bool :=
  ((9 <=? c) && (c <=? 13)) || ((28 <=? c) && (c <=? 32))
  || (c =? 133) || (c =? 160) || (c =? 5760)
  || ((8192 <=? c) && (c <=? 8202))
  || (c =? 8232) || (c =? 8233) || (c =? 8239) || (c =? 8287) || (c =? 12288).

Fixpoint lstrip (s : pystr) : pystr :=
  match s with
  | c :: s' => if is_space c then lstrip s' else s
  | [] => []
  end.

Definition rstrip (s : pystr) : pystr := rev (lstrip (rev s)).

(** [s.strip()] *)
Definition strip (s : pystr) : pystr := rstrip (lstrip s).

(** [c.lower()] on ASCII letters.  Outside ASCII Python may change the
    character as well, but never into one of ['.'], ['p'], ['d'], ['f'],
    so every comparison with [".pdf"] below comes out as in Python. *)
Definition lower_char (c : N) : N :=
  if (65 <=? c) && (c <=? 90) then c + 32 else c.

Definition lower (s : pystr) : pystr := map lower_char s.

(** Truthiness of a string: [bool(s)]. *)
Definition truthy (s : pystr) : bool :=
  match s with [] => false | _ => true end.

(** [any(pages)] *)
Definition any (pages : list pystr) : bool := existsb truthy pages.

(** The [or] of [x] with the empty string, [x] being a string or [None]. *)
Definition or_empty (x : option pystr) : pystr :=
  match x with
  | Some (c :: s) => c :: s
  | _ => []
  end.

(** Decimal digits of a non-negative integer, as [str(i)] and the
    [{i}] of an f-string print them. *)
Fixpoint digits_go (fuel : nat) (n : N) (acc : pystr) : pystr :=
  match fuel with
  | O => acc
  | S fuel' =>
      let acc' := (48 + n mod 10) :: acc in
      if n / 10 =? 0 then acc' else digits_go fuel' (n / 10) acc'
  end.

Definition str_int (n : N) : pystr := digits_go (S (N.size_nat n)) n [].

(** UTF-8, the encoding the output file is opened with.  Surrogate code
    points have no encoding: [encodable] is false on them and the write
    raises [UnicodeEncodeError]. *)
Definition is_surrogate (c : N) : bool := (55296 <=? c) && (c <=? 57343).

Definition encodable (s : pystr) : bool := forallb (fun c => negb (is_surrogate c)) s.

Definition utf8_char (c : N) : list N :=
  if c <? 128 then [c]
  else if c <? 2048 then [192 + c / 64; 128 + c mod 64]
  else if c <? 65536 then
    [224 + c / 4096; 128 + (c / 64) mod 64; 128 + c mod 64]
  else
    [240 + c / 262144; 128 + (c / 4096) mod 64; 128 + (c / 64) mod 64;
     128 + c mod 64].

Definition utf8 (s : pystr) : list N := concat (map utf8_char s).

(** ** Paths

    A resolved absolute path is the list of its components from the root;
    [[]] is the root itself.  A relative path is a list of components as
    well, [[]] standing for ["."]. *)

Abbreviation path := (list pystr).

(** [p.parent] *)
Definition parent (p : path) : path := removelast p.

(** [p.name] *)
Definition name (p : path) : pystr := List.last p [].

(** Index of the last ['.'] of a name, [name.rfind('.')]; [None] is the
    [-1] of Python. *)
Fixpoint rfind_dot (s : pystr) : option nat :=
  match s with
  | [] => None
  | c :: s' =>
      match rfind_dot s' with
      | Some i => Some (S i)
      | None => if c =? 46 then Some O else None
      end
  end.

(** [p.suffix]: [name[i:]] if [0 < i < len(name) - 1], else empty. *)
Definition suffix_of_name (nm : pystr) : pystr :=
  match rfind_dot nm with
  | Some (S i) => if decide (S (S i) < length nm)%nat then drop (S i) nm else []
  | _ => []
  end.

(** [p.stem]: [name[:i]] under the same condition, else the whole name. *)
Definition stem_of_name (nm : pystr) : pystr :=
  match rfind_dot nm with
  | Some (S i) => if decide (S (S i) < length nm)%nat then take (S i) nm else nm
  | _ => nm
  end.

Definition suffix (p : path) : pystr := suffix_of_name (name p).
Definition stem (p : path) : pystr := stem_of_name (name p).

(** [str(p)] on POSIX. *)
Definition path_str (p : path) : pystr :=
  match p with
  | [] => str "/"
  | _ => concat (map (fun c => str "/" ++ c) p)
  end.

(** Is [p] equal to [root] or beneath it?  Returns the remaining
    components. *)
Fixpoint strip_prefix (root p : path) : option path :=
  match root, p with
  | [], _ => Some p
  | r :: root', c :: p' => if decide (r = c) then strip_prefix root' p' else None
  | _ :: _, [] => None
  end.

(** [fnmatch] of a name against the pattern ["*" + lit], case-sensitive as
    on POSIX: the name ends with [lit]. *)
Definition fnmatch_star (lit nm : pystr) : bool :=
  bool_decide (drop (length nm - length lit)%nat nm = lit).

(** ** The world: file system, PDF library, standard output *)

(** What PyMuPDF finds on a page: the text [get_text("text")] returns
    ([None] for a falsy non-string), or a page that cannot be loaded (as
    in an encrypted document opened without its password). *)
Inductive page :=
  | PageText (t : option pystr)
  | PageBroken.

Abbreviation document := (list page).

(** A regular file either is a PDF that [fitz.open] accepts, given by the
    document it parses to, or holds text. *)
Inductive fdata :=
  | Pdf (doc : document)
  | Raw (content : pystr).

Inductive node :=
  | Dir
  | File (d : fdata).

#[global] Instance page_eq_dec : EqDecision page.
Proof. solve_decision. Defined.
#[global] Instance fdata_eq_dec : EqDecision fdata.
Proof. solve_decision. Defined.
#[global] Instance node_eq_dec : EqDecision node.
Proof. solve_decision. Defined.

(** The exceptions of class [Exception] that the calls of the script can
    raise on this world. *)
Inductive exn :=
  | FitzFileNotFound (p : path)          (* fitz.open: no such file *)
  | FitzFileData (p : path)              (* fitz.open: not a PDF *)
  | PageLoadError (p : path) (i : nat)   (* iterating the document *)
  | NotInSubpath (p root : path)         (* ValueError of relative_to *)
  | FileExistsError (p : path)
  | FileNotFoundError (p : path)
  | NotADirectoryError (p : path)
  | IsADirectoryError (p : path)
  | UnicodeEncodeError (s : pystr)
  | MaxWorkersError.                     (* ValueError of ThreadPoolExecutor *)

(** Ghost record of the modifications made to the file system. *)
Inductive fs_event :=
  | EvMkdir (p : path)
  | EvCreate (p : path)                  (* open(p, "w"): create or truncate *)
  | EvWrite (p : path) (s : pystr).

(** [exn_text] is [str(e)]: the wording belongs to the platform and to
    the PDF library, so the world supplies it. *)
Record world := World {
  fs : gmap path node;
  open_docs : list path;
  journal : list fs_event;
  stdout : pystr;
  exn_text : exn -> pystr
}.

Definition set_fs (m : gmap path node) (ev : fs_event) (w : world) : world :=
  World m (open_docs w) (journal w ++ [ev]) (stdout w) (exn_text w).

Definition set_open_docs (l : list path) (w : world) : world :=
  World (fs w) l (journal w) (stdout w) (exn_text w).

Definition set_stdout (s : pystr) (w : world) : world :=
  World (fs w) (open_docs w) (journal w) s (exn_text w).

Definition is_file (m : gmap path node) (p : path) : bool :=
  match m !! p with Some (File _) => true | _ => false end.

Definition is_dir (m : gmap path node) (p : path) : bool :=
  match m !! p with Some Dir => true | _ => false end.

(** The root is a directory and every other entry sits in a directory. *)
Definition wf_fs (m : gmap path node) : Prop :=
  m !! [] = Some Dir /\
  forall p c, is_Some (m !! (p ++ [c])) -> m !! p = Some Dir.

(** ** Statements that may raise *)

Definition M (A : Type) : Type := world -> (exn + A) * world.

#[global] Instance M_ret : MRet M := fun A x w => (inr x, w).

#[global] Instance M_bind : MBind M := fun A B k m w =>
  match m w with
  | (inl e, w') => (inl e, w')
  | (inr x, w') => k x w'
  end.

Definition raise {A : Type} (e : exn) : M A := fun w => (inl e, w).

(** [print(s)] *)
Definition print (s : pystr) : M unit := fun w =>
  (inr tt, set_stdout (stdout w ++ s ++ nl) w).

(** *** PyMuPDF *)

(** [fitz.open(p)] *)
Definition fitz_open (p : path) : M document := fun w =>
  match fs w !! p with
  | Some (File (Pdf doc)) => (inr doc, set_open_docs (p :: open_docs w) w)
  | Some _ => (inl (FitzFileData p), w)
  | None => (inl (FitzFileNotFound p), w)
  end.

Fixpoint remove_first (p : path) (l : list path) : list path :=
  match l with
  | [] => []
  | q :: l' => if decide (p = q) then l' else q :: remove_first p l'
  end.

(** [doc.close()] *)
Definition doc_close (p : path) : M unit := fun w =>
  (inr tt, set_open_docs (remove_first p (open_docs w)) w).

(** Loading page [i] and [page.get_text("text")]. *)
Definition get_text (p : path) (i : nat) (pg : page) : M (option pystr) :=
  match pg with
  | PageText t => mret t
  | PageBroken => raise (PageLoadError p i)
  end.

(** *** pathlib and the file system

    Permissions and disk space are not modelled: a call fails only for
    what is, or is not, at the path it is given. *)

(** [p.relative_to(root)] *)
Definition relative_to (p root : path) : M path :=
  match strip_prefix root p with
  | Some rel => mret rel
  | None => raise (NotInSubpath p root)
  end.

(** [os.mkdir(p)] *)
Definition os_mkdir (p : path) : M unit := fun w =>
  match fs w !! p with
  | Some _ => (inl (FileExistsError p), w)
  | None =>
      match p with
      | [] => (inl (FileNotFoundError p), w)
      | _ =>
          match fs w !! parent p with
          | Some Dir => (inr tt, set_fs (<[p := Dir]> (fs w)) (EvMkdir p) w)
          | Some (File _) => (inl (NotADirectoryError p), w)
          | None => (inl (FileNotFoundError p), w)
          end
      end
  end.

(** One level of [Path.mkdir(exist_ok=True)]: [os.mkdir], and an
    [OSError] other than [FileNotFoundError] is swallowed when the path
    is a directory by then. [on_missing] is what the [except
    FileNotFoundError] branch does. *)
Definition mkdir_level (p : path) (on_missing : exn -> M unit) : M unit := fun w =>
  match os_mkdir p w with
  | (inr tt, w') => (inr tt, w')
  | (inl (FileNotFoundError q), w') => on_missing (FileNotFoundError q) w'
  | (inl e, w') => if is_dir (fs w') p then (inr tt, w') else (inl e, w')
  end.

(** [Path.mkdir(parents=True, exist_ok=True)], by recursion on the path
    read from its last component: on [FileNotFoundError] the parent is
    made first (unless the path is its own parent) and the directory is
    made again without [parents]. *)
Fixpoint mkdir_rev (rp : list pystr) : M unit :=
  mkdir_level (rev rp) (fun e =>
    match rp with
    | [] => raise e
    | _ :: rparent =>
        _ ← mkdir_rev rparent;
        mkdir_level (rev rp) raise
    end).

Definition mkdir (p : path) : M unit := mkdir_rev (rev p).

(** [open(f, "w", encoding="utf-8")]: creates the file or truncates it. *)
Definition open_w (f : path) : M unit := fun w =>
  match fs w !! f with
  | Some Dir => (inl (IsADirectoryError f), w)
  | _ =>
      match fs w !! parent f with
      | Some Dir => (inr tt, set_fs (<[f := File (Raw [])]> (fs w)) (EvCreate f) w)
      | Some (File _) => (inl (NotADirectoryError f), w)
      | None => (inl (FileNotFoundError f), w)
      end
  end.

Definition content_at (m : gmap path node) (f : path) : pystr :=
  match m !! f with
  | Some (File (Raw c)) => c
  | _ => []
  end.

(** [f.write(s)] on a file opened for writing: the text is encoded and
    appended.  (Newlines are written as they are, as on POSIX.) *)
Definition f_write (f : path) (s : pystr) : M unit := fun w =>
  if encodable s
  then (inr tt, set_fs (<[f := File (Raw (content_at (fs w) f ++ s))]> (fs w)) (EvWrite f s) w)
  else (inl (UnicodeEncodeError s), w).

(** ** The script *)

(** The loop of [extract_text_ignore_overlays]: [i] counts the pages
    already read, [pages] is the list built so far. *)
Fixpoint read_pages (pdf_path : path) (doc : document) (i : nat)
    (pages : list pystr) : M (list pystr) :=
  match doc with
  | [] => mret pages
  | pg :: doc' =>
      text ← get_text pdf_path i pg;
      read_pages pdf_path doc' (S i) (pages ++ [strip (or_empty text)])
  end.

Definition extract_text_ignore_overlays (pdf_path : path) : M (list pystr) :=
  doc ← fitz_open pdf_path;
  pages ← read_pages pdf_path doc 0%nat [];
  _ ← doc_close pdf_path;
  mret pages.

(** The header written before page [i]. *)
Definition page_header (i : N) : pystr :=
  nl ++ str "--- PAGE " ++ str_int i ++ str " ---" ++ nl.

(** The loop over [enumerate(pages, start=1)]; [i] is the current number. *)
Fixpoint write_pages (f : path) (pages : list pystr) (i : N) : M unit :=
  match pages with
  | [] => mret tt
  | text :: pages' =>
      _ ← f_write f (page_header i);
      _ ← f_write f (text ++ nl);
      write_pages f pages' (N.succ i)
  end.

(** A task result: [(pdf_path, ok, error message or None)]. *)
Abbreviation task_result := (path * bool * option pystr)%type.

Definition out_name (pdf_path : path) : pystr :=
  stem pdf_path ++ str "_RECOVERED.txt".

(** The [try] block of [process_pdf]. *)
Definition process_pdf_try (pdf_path input_root output_root : path) : M task_result :=
  pages ← extract_text_ignore_overlays pdf_path;
  if negb (any pages) then
    mret (pdf_path, false, Some (str "No extractable text"))
  else
    relative_path ← relative_to pdf_path input_root;
    let out_dir := output_root ++ parent relative_path in
    _ ← mkdir out_dir;
    let out_file := out_dir ++ [out_name pdf_path] in
    _ ← open_w out_file;
    _ ← write_pages out_file pages 1;
    mret (pdf_path, true, None).

(** [process_pdf]: the [except Exception] clause turns a raise into a
    failure result, so the function itself always returns. *)
Definition process_pdf (pdf_path input_root output_root : path)
    (w : world) : task_result * world :=
  match process_pdf_try pdf_path input_root output_root w with
  | (inr r, w') => (r, w')
  | (inl e, w') => ((pdf_path, false, Some (exn_text w' e)), w')
  end.

(** [path.rglob("*" + lit)]: nothing unless [root] is a directory, else
    every entry strictly beneath it whose name matches. *)
Definition beneath (root q : path) : bool :=
  match strip_prefix root q with
  | Some (_ :: _) => true
  | _ => false
  end.

Definition rglob (m : gmap path node) (root : path) (lit : pystr) : list path :=
  if is_dir m root
  then filter (fun q => beneath root q && fnmatch_star lit (name q) = true)
         (map fst (map_to_list m))
  else [].

Definition find_pdfs (m : gmap path node) (p : path) : list path :=
  if is_file m p && bool_decide (lower (suffix p) = str ".pdf")
  then [p]
  else rglob m p (str ".pdf").

(** The pool: which of the submitted tasks takes effect, and is reported,
    first.  With one worker it is the order of submission. *)
Record scheduler := Scheduler {
  completion_order : list path -> list path;
  completion_perm : forall l, completion_order l ≡ₚ l
}.

Fixpoint run_tasks (input_root output_root : path) (order : list path)
    (w : world) : list task_result * world :=
  match order with
  | [] => ([], w)
  | pdf :: order' =>
      let '(r, w1) := process_pdf pdf input_root output_root w in
      let '(rs, w2) := run_tasks input_root output_root order' w1 in
      (r :: rs, w2)
  end.

Definition result_ok (r : task_result) : bool := snd (fst r).

(** [print(f"[FAIL] {pdf}: {err}")] for the failed tasks. *)
Fixpoint print_failures (results : list task_result) : M unit :=
  match results with
  | [] => mret tt
  | (pdf, ok, err) :: results' =>
      _ ← (if ok then mret tt
           else print (str "[FAIL] " ++ path_str pdf ++ str ": "
                       ++ default (str "None") err));
      print_failures results'
  end.

Definition nat_str (n : nat) : pystr := str_int (N.of_nat n).

(** [main], after argument parsing and [resolve()]: [input_root] and
    [output_root] are the resolved paths, [threads] the worker count. *)
Definition main (sch : scheduler) (input_root output_root : path)
    (threads : Z) : M unit :=
  _ ← mkdir output_root;
  pdfs ← (fun w => (inr (find_pdfs (fs w) input_root), w));
  match pdfs with
  | [] => print (str "No PDFs found.")
  | _ =>
      _ ← print (str "[*] Found " ++ nat_str (length pdfs) ++ str " PDFs");
      _ ← print (str "[*] Threads: " ++
                 (if (threads <? 0)%Z then str "-" else []) ++ str_int (Z.abs_N threads));
      _ ← print (str "[*] Output root: " ++ path_str output_root);
      _ ← (if (threads <=? 0)%Z then raise MaxWorkersError else mret tt);
      results ← (fun w =>
        let '(rs, w') := run_tasks input_root output_root
                           (completion_order sch pdfs) w in (inr rs, w'));
      let success := length (filter (fun r => result_ok r = true) results) in
      let failed := (length results - success)%nat in
      _ ← print (nl ++ str "=== SUMMARY ===");
      _ ← print (str "Processed: " ++ nat_str (length results));
      _ ← print (str "Recovered: " ++ nat_str success);
      _ ← print (str "Failed: " ++ nat_str failed);
      print_failures results
  end.

(** Exit status of the process: 0 when [main] returns, 1 when an
    exception reaches the top level. *)
Definition exit_status (r : exn + unit) : Z :=
  match r with inr _ => 0%Z | inl _ => 1%Z end.

(** ** Notions used in the statements *)

Definition all_space (s : pystr) : Prop := Forall (fun c => is_space c = true) s.

(** Neither the first nor the last character is whitespace. *)
Definition no_outer_space (s : pystr) : Prop :=
  (forall c t, s = c :: t -> is_space c = false) /\
  (forall c t, s = t ++ [c] -> is_space c = false).

(** The number a string of decimal digits denotes, as [int(s)]. *)
Definition digits_value (s : pystr) : N :=
  fold_left (fun acc c => 10 * acc + (c - 48)) s 0.

(** *** The documents *)

(** A page that loads. *)
Definition readable (pg : page) : bool :=
  match pg with PageText _ => true | PageBroken => false end.

(** The text of a page that loads: what [get_text] returns, or the empty
    string. *)
Definition raw_text (pg : page) : pystr :=
  match pg with PageText t => or_empty t | PageBroken => [] end.

(** The list [extract_text_ignore_overlays] builds from a document whose
    pages all load. *)
Definition page_texts (doc : document) : list pystr :=
  map (fun pg => strip (raw_text pg)) doc.

(** Position of the first page that does not load. *)
Fixpoint first_broken (doc : document) : nat :=
  match doc with
  | [] => O
  | pg :: doc' => if readable pg then S (first_broken doc') else O
  end.


(** *** The recovered file *)

(** The text the write loop produces for [pages], numbered from [i]. *)
Fixpoint render_from (i : N) (pages : list pystr) : pystr :=
  match pages with
  | [] => []
  | text :: pages' => page_header i ++ (text ++ nl) ++ render_from (N.succ i) pages'
  end.

(** The content of a recovered file: pages are numbered from 1. *)
Definition render_pages (pages : list pystr) : pystr := render_from 1 pages.

(** How the write loop ends: the text that reached the file and the
    exception, if a page cannot be encoded. *)
Fixpoint written (pages : list pystr) (i : N) : pystr * option exn :=
  match pages with
  | [] => ([], None)
  | text :: pages' =>
      if encodable (text ++ nl)
      then let '(c, e) := written pages' (N.succ i) in
           (page_header i ++ (text ++ nl) ++ c, e)
      else (page_header i, Some (UnicodeEncodeError (text ++ nl)))
  end.

(** Where [process_pdf] puts the recovered text of [pdf_path]. *)
Definition out_file_of (pdf_path input_root output_root : path) : option path :=
  rel ← strip_prefix input_root pdf_path;
  Some ((output_root ++ parent rel) ++ [out_name pdf_path]).

(** The bytes of a text file: its content in UTF-8. *)
Definition file_bytes (m : gmap path node) (f : path) : option (list N) :=
  match m !! f with
  | Some (File (Raw c)) => Some (utf8 c)
  | _ => None
  end.

Definition no_extractable_text : pystr := str "No extractable text".

(** Lines of a text, as [s.split("\n")] gives them. *)
Fixpoint lines_go (s cur : pystr) : list pystr :=
  match s with
  | [] => [cur]
  | c :: s' => if c =? 10 then cur :: lines_go s' [] else lines_go s' (cur ++ [c])
  end.

Definition lines (s : pystr) : list pystr := lines_go s [].

Definition is_digit (c : N) : bool := (48 <=? c) && (c <=? 57).

(** [s] without its prefix [lit], if it starts with it. *)
Fixpoint after_literal (lit s : pystr) : option pystr :=
  match lit, s with
  | [], _ => Some s
  | a :: lit', c :: s' => if a =? c then after_literal lit' s' else None
  | _ :: _, [] => None
  end.

(** A line of the form [--- PAGE N ---], [N] a decimal number. *)
Definition is_header_line (l : pystr) : bool :=
  match after_literal (str "--- PAGE ") l with
  | Some rest =>
      let n := (length rest - 4)%nat in
      bool_decide (drop n rest = str " ---")
      && negb (Nat.eqb n 0) && forallb is_digit (take n rest)
  | None => false
  end.


(** The header of page [i] without its newlines. *)
Definition header_line (i : N) : pystr :=
  str "--- PAGE " ++ str_int i ++ str " ---".

(** *** Changes to the file system *)

(** The events a step added to the journal. *)
Definition new_events (w w' : world) : list fs_event :=
  drop (length (journal w)) (journal w').

(** [w'] is [w] with more directories: what [mkdir] can do to a world. *)
Record grows (w w' : world) : Prop := Grows {
  grows_old : forall q x, fs w !! q = Some x -> fs w' !! q = Some x;
  grows_new : forall q, fs w !! q = None -> is_Some (fs w' !! q) ->
                        fs w' !! q = Some Dir;
  grows_journal : exists evs, journal w' = journal w ++ evs /\
                              Forall (fun ev => exists q, ev = EvMkdir q) evs;
  grows_open_docs : open_docs w' = open_docs w;
  grows_stdout : stdout w' = stdout w;
  grows_exn_text : exn_text w' = exn_text w
}.

(** What one task may do to the file system, [f] being its output file:
    an entry stays as it is, or a directory appears where nothing was, or
    the entry is the output file, which was not a directory and now holds
    text. *)
Definition task_step (f : option path) (m m' : gmap path node) : Prop :=
  forall x,
    m' !! x = m !! x \/
    (m !! x = None /\ m' !! x = Some Dir) \/
    (f = Some x /\ m !! x <> Some Dir /\ exists c, m' !! x = Some (File (Raw c))).

(** What a run of tasks does to the file system: directories stay,
    regular files stay regular files, and no PDF appears. *)
Definition evolves (m m' : gmap path node) : Prop :=
  (forall x, m !! x = Some Dir -> m' !! x = Some Dir) /\
  (forall x d, m !! x = Some (File d) -> exists d', m' !! x = Some (File d')) /\
  (forall x doc, m' !! x = Some (File (Pdf doc)) -> m !! x = Some (File (Pdf doc))).

(** [wf_fs], checked entry by entry. *)
Definition wf_fs_check (m : gmap path node) : bool :=
  is_dir m [] &&
  forallb (fun e => match fst e with
                    | [] => true
                    | _ => is_dir m (parent (fst e))
                    end)
          (map_to_list m).

(** *** Tasks that have nothing left to do *)

(** [q] is a PDF that opens, whose pages all load, with some text. *)
Definition good_pdf (m : gmap path node) (q : path) (pages : list pystr) : Prop :=
  exists doc,
    m !! q = Some (File (Pdf doc)) /\ forallb readable doc = true /\
    page_texts doc = pages /\ any pages = true.

(** The file system shows why the task of [q] will not change it: there
    is nothing to write; or the relative path does not exist; or a
    regular file blocks the mirrored directory; or that directory exists
    and the output file is a directory, or already holds what the task
    writes. *)
Definition done_with (q input_root output_root : path) (m : gmap path node) : Prop :=
  (forall pages, ~ good_pdf m q pages) \/
  exists pages,
    good_pdf m q pages /\
    match strip_prefix input_root q with
    | None => True
    | Some rel =>
        let out_dir := output_root ++ parent rel in
        let out_file := out_dir ++ [out_name q] in
        (exists x d, x `prefix_of` out_dir /\ m !! x = Some (File d)) \/
        (is_dir m out_dir = true /\
         (m !! out_file = Some Dir \/
          m !! out_file = Some (File (Raw (fst (written pages 1))))))
    end.

(** Running the task of [q] on a world with file system [m] leaves [m]. *)
Definition settled (q input_root output_root : path) (m : gmap path node) : Prop :=
  forall w, fs w = m ->
            fs (snd (process_pdf q input_root output_root w)) = m.

(** The tasks [main] runs, in the order they take effect: none if the
    output root cannot be made or the pool cannot be created. *)
Definition batch_order (sch : scheduler) (input_root output_root : path)
    (threads : Z) (w : world) : list path :=
  match mkdir output_root w with
  | (inl _, _) => []
  | (inr _, w0) =>
      if (threads <=? 0)%Z then []
      else completion_order sch (find_pdfs (fs w0) input_root)
  end.

(** *** What [main] prints *)

Definition task_path (r : task_result) : path := fst (fst r).

(** The three lines printed before the pool starts. *)
Definition banner (pdfs : list path) (output_root : path) (threads : Z) : pystr :=
  (str "[*] Found " ++ nat_str (length pdfs) ++ str " PDFs") ++ nl
  ++ (str "[*] Threads: "
      ++ (if (threads <? 0)%Z then str "-" else []) ++ str_int (Z.abs_N threads)) ++ nl
  ++ (str "[*] Output root: " ++ path_str output_root) ++ nl.

(** The summary block. *)
Definition summary (processed recovered failed : nat) : pystr :=
  (nl ++ str "=== SUMMARY ===") ++ nl
  ++ (str "Processed: " ++ nat_str processed) ++ nl
  ++ (str "Recovered: " ++ nat_str recovered) ++ nl
  ++ (str "Failed: " ++ nat_str failed) ++ nl.

(** One [[FAIL]] line per failed task, in the order of the results. *)
Definition failure_line (r : task_result) : pystr :=
  let '(pdf, ok, err) := r in
  if ok then []
  else (str "[FAIL] " ++ path_str pdf ++ str ": " ++ default (str "None") err) ++ nl.

Definition failure_lines (results : list task_result) : pystr :=
  concat (map failure_line results).

(** Number of successful tasks. *)
Definition recovered (results : list task_result) : nat :=
  length (filter (fun r => result_ok r = true) results).

(** ** Example worlds *)

Definition P (l : list string) : path := map str l.

(** Some wording for the exceptions. *)
Definition messages (e : exn) : pystr :=
  match e with
  | FitzFileNotFound p => str "no such file: " ++ path_str p
  | FitzFileData p => str "Failed to open file " ++ path_str p
  | PageLoadError _ _ => str "document closed or encrypted"
  | NotInSubpath p root =>
      path_str p ++ str " is not in the subpath of " ++ path_str root
  | FileExistsError p => str "[Errno 17] File exists: " ++ path_str p
  | FileNotFoundError p => str "[Errno 2] No such file or directory: " ++ path_str p
  | NotADirectoryError p => str "[Errno 20] Not a directory: " ++ path_str p
  | IsADirectoryError p => str "[Errno 21] Is a directory: " ++ path_str p
  | UnicodeEncodeError _ => str "'utf-8' codec can't encode character: surrogates not allowed"
  | MaxWorkersError => str "max_workers must be greater than 0"
  end.

(** A world with the given entries, nothing open, nothing printed. *)
Definition disk (entries : list (path * node)) : world :=
  World (list_to_map entries) [] [] [] messages.

(** [a.pdf] of the specification's scenario: "CONFIDENTIAL" on page 1,
    nothing on page 2. *)
Definition a_pdf : document :=
  [PageText (Some (str "CONFIDENTIAL" ++ nl)); PageText (Some [])].

(** [b.pdf]: a scan without a text layer. *)
Definition b_pdf : document := [PageText (Some [32; 10])].

Definition scenario : world :=
  disk [([], Dir); (P ["in"], Dir);
        (P ["in"; "a.pdf"], File (Pdf a_pdf));
        (P ["in"; "b.pdf"], File (Pdf b_pdf))].

(** The text the specification expects in [a_RECOVERED.txt]. *)
Definition expected_a : pystr :=
  str "--- PAGE 1 ---" ++ nl ++ str "CONFIDENTIAL" ++ nl ++ nl
  ++ str "--- PAGE 2 ---" ++ nl ++ nl.

(** [c.pdf] is not a PDF. *)
Definition with_junk : world :=
  disk [([], Dir); (P ["in"], Dir);
        (P ["in"; "a.pdf"], File (Pdf a_pdf));
        (P ["in"; "b.pdf"], File (Pdf b_pdf));
        (P ["in"; "c.pdf"], File (Raw (str "not a pdf")))].

(** A PDF that opens although its second page cannot be loaded. *)
Definition damaged : world :=
  disk [([], Dir);
        (P ["d.pdf"], File (Pdf [PageText (Some (str "page one")); PageBroken]))].

(** A PDF with text whose mirrored directory [out/sub] cannot be made:
    a regular file is in the way. *)
Definition blocked : world :=
  disk [([], Dir); (P ["in"], Dir); (P ["in"; "sub"], Dir);
        (P ["in"; "sub"; "a.pdf"], File (Pdf a_pdf));
        (P ["out"], Dir); (P ["out"; "sub"], File (Raw (str "notes")))].


(** A directory whose name ends in [.pdf]. *)
Definition with_pdf_dir : world :=
  disk [([], Dir); (P ["in"], Dir); (P ["in"; "x.pdf"], Dir);
        (P ["in"; "a.pdf"], File (Pdf a_pdf))].

(** Nothing but the root. *)
Definition bare : world := disk [([], Dir)].

(** Two PDFs with the same stem: [.pdf] has no suffix, so its stem is its
    whole name, which is also the stem of [.pdf.pdf]. *)
Definition colliding : world :=
  disk [([], Dir); (P ["in"], Dir);
        (P ["in"; ".pdf"], File (Pdf [PageText (Some (str "first"))]));
        (P ["in"; ".pdf.pdf"], File (Pdf [PageText (Some (str "second"))]))].

(** In order and at once: the pool with a single worker. *)
Definition in_order : scheduler :=
  Scheduler (fun l => l) (fun l => Permutation_refl l).

(** Last submitted, first run. *)
Definition in_reverse : scheduler :=
  Scheduler (@rev path) (fun l => Permutation_sym (Permutation_rev l)).

(** [colliding] after the tool has run on it with two workers, the tasks
    completing in the order of submission; and after it has then run a
    second time, the tasks completing in the opposite order. *)
Definition colliding_once : world :=
  snd (main in_order (P ["in"]) (P ["out"]) 2 colliding).

Definition colliding_twice : world :=
  snd (main in_reverse (P ["in"]) (P ["out"]) 2 colliding_once).

(** ** Notions used for the further properties *)


(** A regular file lies on the way to [p], or is [p] itself. *)
Definition blocked_by_file (m : gmap path node) (p : path) : Prop :=
  exists x d, x `prefix_of` p /\ m !! x = Some (File d).

(** What the tool may do to the file system, [output_root] being its
    output root: an entry stays as it is; or a directory appears where
    nothing was, on the way to the output root or beneath it; or a text
    file named [..._RECOVERED.txt] beneath the output root is there,
    where no directory was. *)
Definition tool_step (output_root : path) (m m' : gmap path node) : Prop :=
  forall x,
    m' !! x = m !! x \/
    (m !! x = None /\ m' !! x = Some Dir /\
     (x `prefix_of` output_root \/ output_root `prefix_of` x)) \/
    (m !! x <> Some Dir /\ output_root `prefix_of` x /\
     (exists s, name x = s ++ str "_RECOVERED.txt") /\
     exists c, m' !! x = Some (File (Raw c))).



(** The header lines of a text, in order. *)
Definition header_lines (content : pystr) : list pystr :=
  filter (fun l => is_header_line l = true) (lines content).


(** The output root is a regular file. *)
Definition output_is_file : world :=
  disk [([], Dir); (P ["in"], Dir); (P ["in"; "a.pdf"], File (Pdf a_pdf));
        (P ["out"], File (Raw (str "notes")))].

(** ** Proof steps *)

(** The three cases of [task_step] at an entry: unchanged, a new
    directory, or the output file. *)
Ltac step_at Hstep x :=
  destruct (Hstep x) as [?Hsame|[[?Hnone ?Hdir]|(?Hout & ?Hnodir & ?c & ?Hraw)]].

(** * Properties *)

(** ** The string helpers *)

Lemma lstrip_split s :
  exists a, s = a ++ lstrip s /\ all_space a.
Proof.
  induction s as [|c s [a [Ha Hsp]]]; simpl.
  - exists []. split; [done | constructor].
  - destruct (is_space c) eqn:Hc.
    + exists (c :: a). split; [by rewrite Ha at 1 | by constructor].
    + exists []. split; [done | constructor].
Qed.

Lemma lstrip_head s c t : lstrip s = c :: t -> is_space c = false.
Proof.
  induction s as [|d s IH]; simpl; [done |].
  destruct (is_space d) eqn:Hd; [done |].
  intros [= -> _]. done.
Qed.

Lemma rstrip_split s :
  exists b, s = rstrip s ++ b /\ all_space b.
Proof.
  unfold rstrip. destruct (lstrip_split (rev s)) as [a [Ha Hsp]].
  exists (rev a). split.
  - rewrite <- (rev_involutive s), Ha at 1. by rewrite rev_app_distr.
  - unfold all_space. by apply Forall_rev.
Qed.

Lemma rstrip_last s c t : rstrip s = t ++ [c] -> is_space c = false.
Proof.
  unfold rstrip. intros H.
  apply (f_equal (@rev N)) in H. rewrite rev_involutive, rev_app_distr in H.
  simpl in H. by apply lstrip_head in H.
Qed.

Lemma strip_split s :
  exists a b, s = a ++ strip s ++ b /\ all_space a /\ all_space b.
Proof.
  destruct (lstrip_split s) as [a [Ha Hsa]].
  destruct (rstrip_split (lstrip s)) as [b [Hb Hsb]].
  exists a, b. unfold strip. by rewrite <- Hb.
Qed.

Lemma strip_no_outer_space s : no_outer_space (strip s).
Proof.
  split.
  - intros c t Hs. unfold strip in Hs.
    destruct (rstrip_split (lstrip s)) as [b [Hb _]].
    rewrite Hs in Hb. by apply lstrip_head in Hb.
  - intros c t Hs. by apply rstrip_last in Hs.
Qed.



(** [str_int] prints the number: the fuel it starts with is enough. *)

Lemma pos_size_nat_bound p : N.pos p < 2 ^ N.of_nat (Pos.size_nat p).
Proof.
  induction p as [p IH|p IH|]; cbn [Pos.size_nat].
  - rewrite Nat2N.inj_succ, N.pow_succ_r'. lia.
  - rewrite Nat2N.inj_succ, N.pow_succ_r'. lia.
  - reflexivity.
Qed.

Lemma size_nat_bound n : n < 2 ^ N.of_nat (S (N.size_nat n)).
Proof.
  rewrite Nat2N.inj_succ, N.pow_succ_r'. destruct n as [|p]; cbn [N.size_nat].
  - reflexivity.
  - pose proof (pos_size_nat_bound p). lia.
Qed.

Lemma digits_value_snoc s c : digits_value (s ++ [c]) = 10 * digits_value s + (c - 48).
Proof. unfold digits_value. by rewrite fold_left_app. Qed.

Lemma digits_go_S fuel n acc :
  digits_go (S fuel) n acc =
  if n / 10 =? 0 then (48 + n mod 10) :: acc
  else digits_go fuel (n / 10) ((48 + n mod 10) :: acc).
Proof. reflexivity. Qed.

Lemma digits_go_value fuel n acc :
  n < 2 ^ N.of_nat (S fuel) ->
  exists pre, digits_go (S fuel) n acc = pre ++ acc /\ digits_value pre = n.
Proof.
  revert n acc. induction fuel as [|fuel IH]; intros n acc Hn.
  - assert (n = 0 \/ n = 1) as [-> | ->] by (change (2 ^ N.of_nat 1) with 2 in Hn; lia).
    + exists [48]. by split.
    + exists [49]. by split.
  - rewrite digits_go_S.
    pose proof (N.div_mod n 10 ltac:(done)) as Hdm.
    assert (n mod 10 < 10) as Hm by (by apply N.mod_lt).
    revert Hdm Hm. generalize (n mod 10) (n / 10). intros r q Hdm Hm.
    destruct (N.eqb_spec q 0) as [->|Hq].
    + exists [48 + r]. split; [done |]. unfold digits_value. cbn. lia.
    + assert (q < 2 ^ N.of_nat (S fuel)) as Hq'.
      { rewrite (Nat2N.inj_succ (S fuel)), N.pow_succ_r' in Hn. lia. }
      destruct (IH q ((48 + r) :: acc) Hq') as (pre & Hpre & Hval).
      exists (pre ++ [48 + r]). split.
      * rewrite Hpre. by rewrite <- app_assoc.
      * rewrite digits_value_snoc, Hval. lia.
Qed.

Lemma str_int_value n : digits_value (str_int n) = n.
Proof.
  unfold str_int.
  destruct (digits_go_value (N.size_nat n) n [] (size_nat_bound n)) as (pre & -> & H).
  by rewrite app_nil_r.
Qed.

(** ** Running statements *)

Lemma world_eta w :
  World (fs w) (open_docs w) (journal w) (stdout w) (exn_text w) = w.
Proof. by destruct w. Qed.

Lemma bind_run {A B} (m : M A) (k : A -> M B) w :
  (m ≫= k) w =
  match m w with
  | (inl e, w') => (inl e, w')
  | (inr x, w') => k x w'
  end.
Proof. reflexivity. Qed.

Lemma remove_first_head p l : remove_first p (p :: l) = l.
Proof. simpl. by rewrite decide_True. Qed.

(** ** The text extractor *)

Lemma read_pages_run pdf_path doc i acc w :
  read_pages pdf_path doc i acc w =
  if forallb readable doc
  then (inr (acc ++ page_texts doc), w)
  else (inl (PageLoadError pdf_path (i + first_broken doc)), w).
Proof.
  revert i acc. induction doc as [|pg doc IH]; intros i acc; simpl.
  - by rewrite app_nil_r.
  - destruct pg as [t|]; simpl.
    + rewrite bind_run. simpl. rewrite IH.
      destruct (forallb readable doc).
      * by rewrite <- app_assoc.
      * do 3 f_equal. lia.
    + rewrite bind_run. simpl. do 3 f_equal. lia.
Qed.

Lemma extract_run pdf_path w :
  extract_text_ignore_overlays pdf_path w =
  match fs w !! pdf_path with
  | Some (File (Pdf doc)) =>
      if forallb readable doc
      then (inr (page_texts doc), w)
      else (inl (PageLoadError pdf_path (first_broken doc)),
            set_open_docs (pdf_path :: open_docs w) w)
  | Some _ => (inl (FitzFileData pdf_path), w)
  | None => (inl (FitzFileNotFound pdf_path), w)
  end.
Proof.
  unfold extract_text_ignore_overlays. rewrite bind_run. unfold fitz_open.
  destruct (fs w !! pdf_path) as [[|[doc|c]]|] eqn:Hp; try done.
  rewrite bind_run, read_pages_run.
  destruct (forallb readable doc); [|done].
  rewrite bind_run. unfold doc_close, set_open_docs. simpl.
  rewrite decide_True by done. by rewrite world_eta.
Qed.

Lemma extract_fs pdf_path w :
  fs (snd (extract_text_ignore_overlays pdf_path w)) = fs w /\
  journal (snd (extract_text_ignore_overlays pdf_path w)) = journal w /\
  stdout (snd (extract_text_ignore_overlays pdf_path w)) = stdout w /\
  exn_text (snd (extract_text_ignore_overlays pdf_path w)) = exn_text w.
Proof.
  rewrite extract_run.
  destruct (fs w !! pdf_path) as [[|[doc|c]]|]; try done.
  by destruct (forallb readable doc).
Qed.

Lemma page_texts_stripped doc :
  Forall2 (fun pg s =>
             exists a b, raw_text pg = a ++ s ++ b /\ all_space a /\ all_space b
                         /\ no_outer_space s)
          doc (page_texts doc).
Proof.
  induction doc as [|pg doc IH]; simpl; constructor; [|done].
  destruct (strip_split (raw_text pg)) as [a [b [H1 [H2 H3]]]].
  exists a, b. repeat split; try done; apply strip_no_outer_space.
Qed.

(** ** Paths and directories *)

Lemma parent_snoc (p : path) c : parent (p ++ [c]) = p.
Proof. unfold parent. apply removelast_last. Qed.

Lemma name_snoc (p : path) c : name (p ++ [c]) = c.
Proof. unfold name. apply last_last. Qed.

Lemma path_snoc_inv (p : path) : p = [] \/ exists q c, p = q ++ [c].
Proof.
  destruct (decide (p = [])) as [|Hne]; [by left | right].
  exists (removelast p), (List.last p []). by apply app_removelast_last.
Qed.

Lemma snoc_neq {A} (l : list A) x : l <> l ++ [x].
Proof.
  intros H. apply (f_equal length) in H. rewrite length_app in H. simpl in H. lia.
Qed.

Lemma grows_refl w : grows w w.
Proof.
  constructor; try done.
  - intros q Hq [x Hx]. congruence.
  - exists []. by rewrite app_nil_r.
Qed.

Lemma grows_trans w1 w2 w3 : grows w1 w2 -> grows w2 w3 -> grows w1 w3.
Proof.
  intros [o1 n1 [e1 [j1 f1]] d1 s1 t1] [o2 n2 [e2 [j2 f2]] d2 s2 t2].
  constructor; try congruence.
  - auto.
  - intros q Hq Hs. destruct (fs w2 !! q) as [x|] eqn:Hq2.
    + assert (fs w2 !! q = Some Dir) as Hd by (apply n1; [done | by rewrite Hq2]).
      by apply o2.
    + by apply n2.
  - exists (e1 ++ e2). split; [by rewrite j2, j1, app_assoc | by apply Forall_app].
Qed.

Lemma os_mkdir_ok p w w' :
  os_mkdir p w = (inr tt, w') ->
  fs w !! p = None /\ fs w !! parent p = Some Dir /\ p <> [] /\
  w' = set_fs (<[p := Dir]> (fs w)) (EvMkdir p) w.
Proof.
  unfold os_mkdir. destruct (fs w !! p); [done |].
  destruct p as [|c p]; [done |].
  destruct (fs w !! parent (c :: p)) as [[|d]|]; try done.
  by intros [= <-].
Qed.

Lemma os_mkdir_raise p w e w' : os_mkdir p w = (inl e, w') -> w' = w.
Proof.
  unfold os_mkdir. destruct (fs w !! p); [by intros [= _ <-] |].
  destruct p as [|c p]; [by intros [= _ <-] |].
  destruct (fs w !! parent (c :: p)) as [[|d]|]; try done; by intros [= _ <-].
Qed.

Lemma os_mkdir_missing p w q w' :
  os_mkdir p w = (inl (FileNotFoundError q), w') ->
  fs w !! p = None /\ (p = [] \/ fs w !! parent p = None).
Proof.
  unfold os_mkdir. destruct (fs w !! p); [done |].
  destruct p as [|c p]; [by auto |].
  destruct (fs w !! parent (c :: p)) as [[|d]|]; try done. by auto.
Qed.

Lemma os_mkdir_fresh p w :
  fs w !! p = None -> p <> [] -> fs w !! parent p = Some Dir ->
  os_mkdir p w = (inr tt, set_fs (<[p := Dir]> (fs w)) (EvMkdir p) w).
Proof.
  intros Hp Hne Hpar. unfold os_mkdir. rewrite Hp.
  destruct p; [done |]. by rewrite Hpar.
Qed.

Lemma set_fs_insert_dir_grows p w :
  fs w !! p = None -> grows w (set_fs (<[p := Dir]> (fs w)) (EvMkdir p) w).
Proof.
  intros Hp. constructor; simpl; try done.
  - intros q x Hq. rewrite lookup_insert_ne; [done | congruence].
  - intros q Hq [x Hx]. destruct (decide (p = q)) as [->|Hne].
    + by rewrite lookup_insert_eq.
    + rewrite lookup_insert_ne in Hx by done. congruence.
  - exists [EvMkdir p]. split; [done |]. constructor; [by exists p | constructor].
Qed.

Lemma wf_fs_insert_dir m p :
  wf_fs m -> p <> [] -> m !! parent p = Some Dir -> wf_fs (<[p := Dir]> m).
Proof.
  intros [Hroot Hwf] Hne Hpar. split.
  - by rewrite lookup_insert_ne.
  - intros a c [x Hx]. destruct (decide (p = a ++ [c])) as [->|Hac].
    + rewrite parent_snoc in Hpar. destruct (decide (a ++ [c] = a)) as [Heq|Hn].
      * rewrite Heq. by rewrite lookup_insert_eq.
      * by rewrite lookup_insert_ne.
    + rewrite lookup_insert_ne in Hx by done.
      assert (m !! a = Some Dir) as Ha by (apply (Hwf a c); by rewrite Hx).
      destruct (decide (p = a)) as [->|Hn].
      * by rewrite lookup_insert_eq.
      * by rewrite lookup_insert_ne.
Qed.

(** What [mkdir] does: a raise leaves the world as it was; otherwise the
    path is a directory afterwards, and all that changed is that
    directories on the way to it were added. *)
Lemma mkdir_rev_spec rp w :
  match mkdir_rev rp w with
  | (inl e, w') => w' = w
  | (inr _, w') =>
      is_dir (fs w') (rev rp) = true /\ grows w w' /\
      (forall q, fs w !! q = None -> is_Some (fs w' !! q) -> q `prefix_of` rev rp) /\
      (wf_fs (fs w) -> wf_fs (fs w'))
  end.
Proof.
  revert w. induction rp as [|c rp IH]; intros w.
  - simpl. unfold mkdir_level. simpl.
    destruct (os_mkdir [] w) as [[e|[]] w1] eqn:Hos.
    + pose proof (os_mkdir_raise _ _ _ _ Hos) as ->.
      destruct e; try (destruct (is_dir (fs w) []) eqn:Hd; [|done];
        split_and!;
        [done | apply grows_refl | intros q Hq [x Hx]; congruence | done]).
      by unfold raise.
    + apply os_mkdir_ok in Hos as (_ & _ & Hne & _). done.
  - simpl mkdir_rev. change (rev (c :: rp)) with (rev rp ++ [c]).
    remember (rev rp ++ [c]) as p eqn:Hp.
    assert (p <> []) as Hpne by (subst p; by destruct (rev rp)).
    assert (parent p = rev rp) as Hparent by (subst p; apply parent_snoc).
    unfold mkdir_level at 1.
    destruct (os_mkdir p w) as [[e|[]] w1] eqn:Hos.
    + pose proof (os_mkdir_raise _ _ _ _ Hos) as ->.
      destruct e; try (destruct (is_dir (fs w) p) eqn:Hd; [|done];
        split_and!;
        [done | apply grows_refl | intros q Hq [x Hx]; congruence | done]).
      apply os_mkdir_missing in Hos as [Habs Hpar].
      destruct Hpar as [|Hpar]; [done |]. rewrite Hparent in Hpar.
      rewrite bind_run. specialize (IH w).
      destruct (mkdir_rev rp w) as [[e|[]] w2] eqn:Hrec; [done |].
      destruct IH as (Hd & Hg & Hpre & Hwf).
      assert (fs w2 !! p = None) as Habs2.
      { destruct (fs w2 !! p) as [x|] eqn:Hx; [|done].
        assert (p `prefix_of` rev rp) as Hpp
          by (apply Hpre; [done | by rewrite Hx]).
        apply prefix_length in Hpp. subst p. rewrite length_app in Hpp.
        simpl in Hpp. lia. }
      unfold is_dir in Hd. destruct (fs w2 !! rev rp) as [[|d]|] eqn:Hrp; try done.
      unfold mkdir_level. rewrite os_mkdir_fresh by (try done; by rewrite Hparent).
      split_and!.
      * unfold is_dir. simpl. by rewrite lookup_insert_eq.
      * eapply grows_trans; [exact Hg |]. by apply set_fs_insert_dir_grows.
      * intros q Hq [x Hx]. simpl in Hx.
        destruct (decide (p = q)) as [<-|Hn]; [done |].
        rewrite lookup_insert_ne in Hx by done.
        etrans; [apply Hpre; [done | by rewrite Hx] |].
        rewrite Hp. by apply prefix_app_r.
      * intros Hw. simpl. apply wf_fs_insert_dir; [by apply Hwf | done |].
        by rewrite Hparent.
    + apply os_mkdir_ok in Hos as (Habs & Hpar & Hne & ->).
      split_and!.
      * unfold is_dir. simpl. by rewrite lookup_insert_eq.
      * by apply set_fs_insert_dir_grows.
      * intros q Hq [x Hx]. simpl in Hx.
        destruct (decide (p = q)) as [<-|Hn]; [done |].
        rewrite lookup_insert_ne in Hx by done. congruence.
      * intros Hw. simpl. by apply wf_fs_insert_dir.
Qed.

Lemma mkdir_raise p w e w' : mkdir p w = (inl e, w') -> w' = w.
Proof.
  unfold mkdir. intros H. pose proof (mkdir_rev_spec (rev p) w) as Hs.
  by rewrite H in Hs.
Qed.

Lemma mkdir_ok p w w' :
  mkdir p w = (inr tt, w') ->
  is_dir (fs w') p = true /\ grows w w' /\
  (forall q, fs w !! q = None -> is_Some (fs w' !! q) -> q `prefix_of` p) /\
  (wf_fs (fs w) -> wf_fs (fs w')).
Proof.
  unfold mkdir. intros H. pose proof (mkdir_rev_spec (rev p) w) as Hs.
  rewrite H in Hs. by rewrite rev_involutive in Hs.
Qed.

Lemma mkdir_dir p w : is_dir (fs w) p = true -> mkdir p w = (inr tt, w).
Proof.
  intros Hd. unfold mkdir.
  assert (forall k, mkdir_level p k w = (inr tt, w)) as Hl.
  { intros k. unfold mkdir_level, os_mkdir. unfold is_dir in Hd.
    destruct (fs w !! p) as [[|d]|] eqn:Hp; try done.
    unfold is_dir. by rewrite Hp. }
  destruct (rev p) as [|c rp] eqn:Hr; simpl.
  - replace p with (@nil pystr) in Hl; [apply Hl |].
    by rewrite <- (rev_involutive p), Hr.
  - replace (rev rp ++ [c]) with p; [apply Hl |].
    by rewrite <- (rev_involutive p), Hr.
Qed.

(** ** Writing the output file *)

Lemma digits_go_digits fuel n acc :
  Forall (fun c => 48 <= c <= 57) acc ->
  Forall (fun c => 48 <= c <= 57) (digits_go fuel n acc).
Proof.
  revert n acc. induction fuel as [|fuel IH]; intros n acc Hacc; simpl; [done |].
  assert (Forall (fun c => 48 <= c <= 57) ((48 + n mod 10) :: acc)) as H.
  { constructor; [|done]. assert (n mod 10 < 10) as Hm by (by apply N.mod_lt).
    revert Hm. generalize (n mod 10). intros m Hm. lia. }
  destruct (n / 10 =? 0); [done | by apply IH].
Qed.

Lemma str_int_digits n : Forall (fun c => 48 <= c <= 57) (str_int n).
Proof. apply digits_go_digits. constructor. Qed.

Lemma digits_go_nonempty fuel n acc : acc <> [] -> digits_go fuel n acc <> [].
Proof.
  revert n acc. induction fuel as [|fuel IH]; intros n acc Hacc; simpl; [done |].
  destruct (n / 10 =? 0); [done | by apply IH].
Qed.

Lemma str_int_nonempty n : str_int n <> [].
Proof.
  unfold str_int. simpl. destruct (n / 10 =? 0); [done |].
  by apply digits_go_nonempty.
Qed.

Lemma encodable_app s t : encodable (s ++ t) = encodable s && encodable t.
Proof. unfold encodable. apply forallb_app. Qed.

Lemma digits_encodable s : Forall (fun c => 48 <= c <= 57) s -> encodable s = true.
Proof.
  intros H. unfold encodable. apply forallb_forall. intros c Hc.
  rewrite Forall_forall in H. apply list_elem_of_In in Hc. specialize (H c Hc).
  unfold is_surrogate. apply negb_true_iff, andb_false_iff. left.
  apply N.leb_gt. lia.
Qed.

Lemma page_header_encodable i : encodable (page_header i) = true.
Proof.
  unfold page_header. rewrite !encodable_app.
  rewrite (digits_encodable (str_int i)) by apply str_int_digits. reflexivity.
Qed.

Lemma open_w_ok f w w' :
  open_w f w = (inr tt, w') ->
  fs w !! f <> Some Dir /\ fs w !! parent f = Some Dir /\
  w' = set_fs (<[f := File (Raw [])]> (fs w)) (EvCreate f) w.
Proof.
  unfold open_w. intros H.
  destruct (fs w !! f) as [[|d]|]; [done | |];
    (destruct (fs w !! parent f) as [[|d']|]; [|done..]);
    injection H as <-; done.
Qed.

Lemma open_w_raise f w e w' : open_w f w = (inl e, w') -> w' = w.
Proof.
  unfold open_w. intros H.
  destruct (fs w !! f) as [[|d]|]; [by injection H | |];
    (destruct (fs w !! parent f) as [[|d']|]; [done | |]); by injection H.
Qed.

Lemma open_w_run f w :
  fs w !! f <> Some Dir -> fs w !! parent f = Some Dir ->
  open_w f w = (inr tt, set_fs (<[f := File (Raw [])]> (fs w)) (EvCreate f) w).
Proof.
  intros Hf Hp. unfold open_w. rewrite Hp. by destruct (fs w !! f) as [[|d]|].
Qed.

Lemma written_render pages i :
  snd (written pages i) = None -> fst (written pages i) = render_from i pages.
Proof.
  revert i. induction pages as [|text pages IH]; intros i; simpl; [done |].
  destruct (encodable (text ++ nl)); [|done].
  specialize (IH (N.succ i)). destruct (written pages (N.succ i)) as [c e].
  simpl in *. intros He. by rewrite IH.
Qed.

Lemma written_all_encodable pages i :
  snd (written pages i) = None <-> Forall (fun s => encodable s = true) pages.
Proof.
  revert i. induction pages as [|text pages IH]; intros i; simpl.
  - split; [constructor | done].
  - rewrite encodable_app. replace (encodable nl) with true by reflexivity.
    rewrite andb_true_r. destruct (encodable text) eqn:Ht.
    + specialize (IH (N.succ i)). destruct (written pages (N.succ i)) as [c e].
      simpl in *. rewrite IH. split; [by constructor | by inversion 1].
    + simpl. split; [done | inversion 1; congruence].
Qed.

Lemma content_at_insert m f c : content_at (<[f := File (Raw c)]> m) f = c.
Proof. unfold content_at. by rewrite lookup_insert_eq. Qed.

(** The write loop on a file holding text: the file ends up with the old
    content followed by [written], the rest of the world is untouched. *)
Lemma write_pages_run f pages i w :
  exists w',
    write_pages f pages i w =
      (match snd (written pages i) with None => inr tt | Some e => inl e end, w') /\
    fs w' = match pages with
            | [] => fs w
            | _ => <[f := File (Raw (content_at (fs w) f ++ fst (written pages i)))]> (fs w)
            end /\
    (exists evs, journal w' = journal w ++ evs /\
                 Forall (fun ev => exists s, ev = EvWrite f s) evs) /\
    open_docs w' = open_docs w /\ stdout w' = stdout w /\ exn_text w' = exn_text w.
Proof.
  revert i w. induction pages as [|text pages IH]; intros i w.
  - exists w. split_and!; try done. exists []. by rewrite app_nil_r.
  - cbn [write_pages written]. rewrite bind_run. unfold f_write at 1.
    rewrite page_header_encodable. rewrite bind_run. unfold f_write at 1.
    destruct (encodable (text ++ nl)) eqn:Henc.
    + set (w1 := set_fs _ (EvWrite f (page_header i)) w).
      set (w2 := set_fs _ (EvWrite f (text ++ nl)) w1).
      assert (fs w2 = <[f := File (Raw (content_at (fs w) f ++ page_header i
                                        ++ text ++ nl))]> (fs w)) as Hw2.
      { subst w2 w1. cbn [fs set_fs]. rewrite content_at_insert, insert_insert_eq.
        by rewrite <- app_assoc. }
      destruct (IH (N.succ i) w2) as (w' & Hrun & Hfs & (evs & Hj & Hev) & Hd & Hs & Ht).
      exists w'. destruct (written pages (N.succ i)) as [c e] eqn:Hw.
      cbn [fst snd] in *.
      split_and!; try done.
      * rewrite Hfs, Hw2. destruct pages.
        -- cbn in Hw. injection Hw as <- <-. by rewrite app_nil_r.
        -- rewrite content_at_insert, insert_insert_eq. by rewrite <- !app_assoc.
      * exists (EvWrite f (page_header i) :: EvWrite f (text ++ nl) :: evs).
        split; [by rewrite Hj; subst w2 w1; cbn; rewrite <- !app_assoc |].
        repeat (constructor; [by eexists |]). done.
    + eexists. split_and!; [done | | | done..].
      * done.
      * exists [EvWrite f (page_header i)]. split; [done |].
        constructor; [by eexists | constructor].
Qed.

(** ** The per-file task *)

(** [process_pdf] step by step. *)
Lemma process_pdf_run pdf_path input_root output_root w :
  process_pdf pdf_path input_root output_root w =
  match extract_text_ignore_overlays pdf_path w with
  | (inl e, w1) => ((pdf_path, false, Some (exn_text w1 e)), w1)
  | (inr pages, w1) =>
      if any pages then
        match strip_prefix input_root pdf_path with
        | None =>
            ((pdf_path, false, Some (exn_text w1 (NotInSubpath pdf_path input_root))), w1)
        | Some rel =>
            let out_dir := output_root ++ parent rel in
            let out_file := out_dir ++ [out_name pdf_path] in
            match mkdir out_dir w1 with
            | (inl e, w2) => ((pdf_path, false, Some (exn_text w2 e)), w2)
            | (inr _, w2) =>
                match open_w out_file w2 with
                | (inl e, w3) => ((pdf_path, false, Some (exn_text w3 e)), w3)
                | (inr _, w3) =>
                    match write_pages out_file pages 1 w3 with
                    | (inl e, w4) => ((pdf_path, false, Some (exn_text w4 e)), w4)
                    | (inr _, w4) => ((pdf_path, true, None), w4)
                    end
                end
            end
        end
      else ((pdf_path, false, Some no_extractable_text), w1)
  end.
Proof.
  unfold process_pdf, process_pdf_try. rewrite bind_run.
  destruct (extract_text_ignore_overlays pdf_path w) as [[e|pages] w1]; [done |].
  destruct (any pages); [|done]. cbn [negb].
  rewrite bind_run. unfold relative_to.
  destruct (strip_prefix input_root pdf_path) as [rel|]; [|done].
  cbn. rewrite bind_run.
  destruct (mkdir (output_root ++ parent rel) w1) as [[e|[]] w2]; [done |].
  rewrite bind_run.
  destruct (open_w _ w2) as [[e|[]] w3]; [done |].
  rewrite bind_run.
  by destruct (write_pages _ pages 1 w3) as [[e|[]] w4].
Qed.

(** The result always names the PDF it was asked to process. *)
Lemma process_pdf_path pdf_path input_root output_root w :
  fst (fst (fst (process_pdf pdf_path input_root output_root w))) = pdf_path.
Proof.
  unfold process_pdf.
  destruct (process_pdf_try pdf_path input_root output_root w) as [[e|r] w'] eqn:H;
    [done |].
  revert H. unfold process_pdf_try. rewrite bind_run.
  destruct (extract_text_ignore_overlays pdf_path w) as [[e|pages] w1]; [done |].
  destruct (negb (any pages)); [by intros [= <- _] |].
  rewrite bind_run. destruct (relative_to _ _ w1) as [[e|rel] w2]; [done |].
  rewrite bind_run. destruct (mkdir _ w2) as [[e|[]] w3]; [done |].
  rewrite bind_run. destruct (open_w _ w3) as [[e|[]] w4]; [done |].
  rewrite bind_run. destruct (write_pages _ pages 1 w4) as [[e|[]] w5]; [done |].
  by intros [= <- _].
Qed.

(** What a successful task has done. *)
Lemma process_pdf_success pdf_path input_root output_root w w' :
  result_ok (fst (process_pdf pdf_path input_root output_root w)) = true ->
  w' = snd (process_pdf pdf_path input_root output_root w) ->
  exists doc rel w1,
    fs w !! pdf_path = Some (File (Pdf doc)) /\
    forallb readable doc = true /\
    any (page_texts doc) = true /\
    Forall (fun s => encodable s = true) (page_texts doc) /\
    strip_prefix input_root pdf_path = Some rel /\
    mkdir (output_root ++ parent rel) w = (inr tt, w1) /\
    fs w1 !! ((output_root ++ parent rel) ++ [out_name pdf_path]) <> Some Dir /\
    fs w' = <[(output_root ++ parent rel) ++ [out_name pdf_path] :=
                File (Raw (render_pages (page_texts doc)))]> (fs w1) /\
    fst (process_pdf pdf_path input_root output_root w) = (pdf_path, true, None) /\
    (exists mk wr, journal w' = journal w ++ mk
                     ++ EvCreate ((output_root ++ parent rel) ++ [out_name pdf_path]) :: wr).
Proof.
  rewrite process_pdf_run, extract_run.
  destruct (fs w !! pdf_path) as [[|[doc|c]]|] eqn:Hp; try done.
  destruct (forallb readable doc) eqn:Hr; [|done].
  destruct (any (page_texts doc)) eqn:Hany; [|done].
  destruct (strip_prefix input_root pdf_path) as [rel|] eqn:Hrel; [|done].
  cbn zeta.
  destruct (mkdir (output_root ++ parent rel) w) as [[e|[]] w1] eqn:Hmk; [done |].
  set (f := (output_root ++ parent rel) ++ [out_name pdf_path]).
  destruct (open_w f w1) as [[e|[]] w2] eqn:Hop; [done |].
  apply open_w_ok in Hop as (Hnd & Hpar & ->).
  destruct (write_pages_run f (page_texts doc) 1
              (set_fs (<[f := File (Raw [])]> (fs w1)) (EvCreate f) w1))
    as (w3 & Hrun & Hfs & (wr & Hjw & _) & _).
  rewrite Hrun.
  destruct (snd (written (page_texts doc) 1)) as [e|] eqn:Hw; [done |].
  intros _ ->. exists doc, rel, w1. cbn [fst snd].
  split_and!; try done.
  - by apply (written_all_encodable _ 1).
  - rewrite Hfs. cbn [fs set_fs]. rewrite content_at_insert.
    destruct (page_texts doc) as [|t ts]; [done |].
    rewrite insert_insert_eq. cbn [app].
    by rewrite (written_render _ _ Hw).
  - apply mkdir_ok in Hmk as (_ & Hg & _). destruct Hg as [_ _ (mk & Hjm & _) _ _ _].
    exists mk, wr. rewrite Hjw. cbn [journal set_fs]. rewrite Hjm. subst f.
    by rewrite <- !app_assoc.
Qed.


Lemma strip_prefix_spec (root p rel : path) :
  strip_prefix root p = Some rel <-> p = root ++ rel.
Proof.
  revert p. induction root as [|r root IH]; intros p; simpl.
  - split; [by intros [= ->] | by intros ->].
  - destruct p as [|c p]; [done |].
    destruct (decide (r = c)) as [->|Hne].
    + rewrite IH. split; [by intros -> | by intros [= ->]].
    + split; [done | intros [= Hc _]; congruence].
Qed.

Lemma process_pdf_failure_raised pdf_path input_root output_root w pages w1 :
  extract_text_ignore_overlays pdf_path w = (inr pages, w1) ->
  any pages = true ->
  result_ok (fst (process_pdf pdf_path input_root output_root w)) = false ->
  exists e,
    process_pdf_try pdf_path input_root output_root w
      = (inl e, snd (process_pdf pdf_path input_root output_root w)) /\
    fst (process_pdf pdf_path input_root output_root w)
      = (pdf_path, false,
         Some (exn_text (snd (process_pdf pdf_path input_root output_root w)) e)).
Proof.
  intros Hex Hany. unfold process_pdf.
  destruct (process_pdf_try pdf_path input_root output_root w) as [[e|r] w'] eqn:H;
    [by eauto |].
  revert H. unfold process_pdf_try. rewrite bind_run, Hex, Hany. cbn [negb].
  rewrite bind_run. destruct (relative_to _ _ w1) as [[e|rel] w2]; [done |].
  rewrite bind_run. destruct (mkdir _ w2) as [[e|[]] w3]; [done |].
  rewrite bind_run. destruct (open_w _ w3) as [[e|[]] w4]; [done |].
  rewrite bind_run. destruct (write_pages _ pages 1 w4) as [[e|[]] w5]; [done |].
  by intros [= <- _].
Qed.

(** ** Counting header lines *)

Lemma lines_go_app a b cur :
  lines_go (a ++ 10 :: b) cur = lines_go a cur ++ lines_go b [].
Proof.
  revert cur. induction a as [|c a IH]; intros cur; simpl; [done |].
  destruct (c =? 10); [by rewrite IH | apply IH].
Qed.

Lemma lines_app_nl a b : lines (a ++ nl ++ b) = lines a ++ lines b.
Proof. apply lines_go_app. Qed.

Lemma lines_go_no_nl s cur :
  Forall (fun c => c <> 10) s -> lines_go s cur = [cur ++ s].
Proof.
  revert cur. induction s as [|c s IH]; intros cur Hs; simpl.
  - by rewrite app_nil_r.
  - inversion Hs as [|? ? Hc Hs']; subst.
    destruct (N.eqb_spec c 10) as [|_]; [done |].
    rewrite IH by done. by rewrite <- app_assoc.
Qed.


Lemma after_literal_app lit s : after_literal lit (lit ++ s) = Some s.
Proof.
  induction lit as [|a lit IH]; simpl; [done |]. by rewrite N.eqb_refl.
Qed.

Lemma header_line_is_header i : is_header_line (header_line i) = true.
Proof.
  unfold is_header_line, header_line. rewrite after_literal_app.
  rewrite length_app. change (length (str " ---")) with 4%nat.
  replace (length (str_int i) + 4 - 4)%nat with (length (str_int i)) by lia.
  rewrite drop_app_length, take_app_length.
  rewrite bool_decide_eq_true_2 by done.
  pose proof (str_int_nonempty i) as Hne.
  destruct (str_int i) as [|d ds] eqn:Hd; [done |]. cbn [length Nat.eqb negb andb].
  apply forallb_forall. intros c Hc.
  pose proof (str_int_digits i) as Hdig. rewrite Hd in Hdig.
  rewrite Forall_forall in Hdig. apply list_elem_of_In in Hc.
  specialize (Hdig c Hc). unfold is_digit.
  apply andb_true_iff. split; apply N.leb_le; lia.
Qed.

Lemma header_line_no_nl i : Forall (fun c => c <> 10) (header_line i).
Proof.
  unfold header_line. rewrite !Forall_app. split_and!.
  - repeat (constructor; [done |]). constructor.
  - eapply Forall_impl; [apply str_int_digits |]. intros c Hc. cbv beta in Hc. lia.
  - repeat (constructor; [done |]). constructor.
Qed.

Lemma page_header_split i : page_header i = nl ++ header_line i ++ nl.
Proof. unfold page_header, header_line. by rewrite <- !app_assoc. Qed.





(** ** What a task does to the file system *)

Lemma wf_fs_insert_file m f d :
  wf_fs m -> f <> [] -> m !! parent f = Some Dir -> m !! f <> Some Dir ->
  wf_fs (<[f := File d]> m).
Proof.
  intros [Hroot Hwf] Hne Hpar Hnd. split.
  - by rewrite lookup_insert_ne.
  - intros a c [x Hx]. destruct (decide (f = a)) as [->|Hfa].
    + destruct (decide (a = a ++ [c])) as [Heq|Hn].
      * apply (f_equal length) in Heq. rewrite length_app in Heq. simpl in Heq. lia.
      * rewrite lookup_insert_ne in Hx by done.
        exfalso. apply Hnd. apply (Hwf a c). by rewrite Hx.
    + rewrite lookup_insert_ne by done.
      destruct (decide (f = a ++ [c])) as [->|Hn].
      * by rewrite parent_snoc in Hpar.
      * rewrite lookup_insert_ne in Hx by done. apply (Hwf a c). by rewrite Hx.
Qed.

Lemma process_pdf_effect pdf_path input_root output_root w :
  let w' := snd (process_pdf pdf_path input_root output_root w) in
  task_step (out_file_of pdf_path input_root output_root) (fs w) (fs w') /\
  (wf_fs (fs w) -> wf_fs (fs w')) /\
  exn_text w' = exn_text w /\ stdout w' = stdout w.
Proof.
  cbn zeta. rewrite process_pdf_run, extract_run.
  assert (forall f v, fs v = fs w -> task_step f (fs w) (fs v)) as Hsame.
  { intros f v Hv x. left. by rewrite Hv. }
  destruct (fs w !! pdf_path) as [[|[doc|c]]|] eqn:Hp;
    try (cbn [snd]; split_and!; [by apply Hsame | done..]).
  destruct (forallb readable doc) eqn:Hr;
    [|cbn [snd]; split_and!; [by apply Hsame | done..]].
  destruct (any (page_texts doc)) eqn:Hany;
    [|cbn [snd]; split_and!; [by apply Hsame | done..]].
  unfold out_file_of.
  destruct (strip_prefix input_root pdf_path) as [rel|] eqn:Hrel;
    [|cbn [snd]; split_and!; [by apply Hsame | done..]].
  cbn zeta. cbn [mbind option_bind].
  set (out_dir := output_root ++ parent rel).
  set (f := out_dir ++ [out_name pdf_path]).
  destruct (mkdir out_dir w) as [[e|[]] w2] eqn:Hmk.
  { apply mkdir_raise in Hmk as ->. cbn [snd]. split_and!; [by apply Hsame | done..]. }
  apply mkdir_ok in Hmk as (Hod & Hg & _ & Hwf2).
  assert (forall x, fs w2 !! x = fs w !! x \/ (fs w !! x = None /\ fs w2 !! x = Some Dir))
    as Hstep2.
  { intros x. destruct (fs w !! x) as [n|] eqn:Hx.
    - left. by apply (grows_old _ _ Hg).
    - destruct (fs w2 !! x) as [n|] eqn:Hx2; [|by left].
      right. split; [done |]. rewrite <- Hx2. apply (grows_new _ _ Hg); [done |].
      by rewrite Hx2. }
  destruct (open_w f w2) as [[e|[]] w3] eqn:Hop.
  { apply open_w_raise in Hop as ->. cbn [snd]. split_and!.
    - intros x. destruct (Hstep2 x) as [|]; [by left | by right; left].
    - done.
    - apply Hg.
    - apply Hg. }
  apply open_w_ok in Hop as (Hnd & Hpar & ->).
  destruct (write_pages_run f (page_texts doc) 1
              (set_fs (<[f := File (Raw [])]> (fs w2)) (EvCreate f) w2))
    as (w4 & Hrun & Hfs & _ & _ & Hso & Hte).
  rewrite Hrun.
  assert (fs w4 = <[f := File (Raw (fst (written (page_texts doc) 1)))]> (fs w2)) as Hfs4.
  { rewrite Hfs. cbn [fs set_fs]. rewrite content_at_insert.
    destruct (page_texts doc); [done |]. by rewrite insert_insert_eq. }
  assert (snd (match snd (written (page_texts doc) 1) with
               | Some e => ((pdf_path, false, Some (exn_text w4 e)), w4)
               | None => ((pdf_path, true, @None pystr), w4)
               end) = w4) as Hw4 by (by destruct (snd (written (page_texts doc) 1))).
  destruct (snd (written (page_texts doc) 1)) as [e|]; cbn [snd] in *.
  all: split_and!;
    [ intros x; destruct (decide (f = x)) as [<-|Hfx];
      [ right; right; split_and!;
        [ done
        | intros Hd; apply Hnd; by apply (grows_old _ _ Hg)
        | eexists; rewrite Hfs4; apply lookup_insert_eq ]
      | rewrite Hfs4, lookup_insert_ne by done;
        destruct (Hstep2 x) as [|]; [by left | by right; left] ]
    | intros Hw; rewrite Hfs4; apply wf_fs_insert_file;
      [ by apply Hwf2 | subst f; by destruct out_dir | | done ];
      subst f; rewrite parent_snoc; unfold is_dir in Hod;
      by destruct (fs w2 !! out_dir) as [[|?]|]
    | rewrite Hte; apply Hg
    | rewrite Hso; apply Hg ].
Qed.

(** ** The text extractor (C4) *)

(** C4, as amended: for every PDF that opens successfully and whose pages
    all load, the text extractor returns the per-page strings in document
    order, one per page, each being the page's text without its leading
    and trailing whitespace, and the world it returns in is the one it
    was called in: the document it opened has been closed. *)
Theorem extract_text_returns_stripped_pages
    (w : world) (pdf_path : path) (doc : document) :
  fst (fitz_open pdf_path w) = inr doc ->
  forallb readable doc = true ->
  exists pages,
    extract_text_ignore_overlays pdf_path w = (inr pages, w) /\
    length pages = length doc /\
    Forall2 (fun pg s =>
               exists a b, raw_text pg = a ++ s ++ b /\ all_space a /\ all_space b
                           /\ no_outer_space s)
            doc pages.
Proof.
  intros Hopen Hr. exists (page_texts doc).
  rewrite extract_run. unfold fitz_open in Hopen.
  destruct (fs w !! pdf_path) as [[|[doc'|c]]|]; try done.
  injection Hopen as ->. rewrite Hr.
  split_and!; [done | apply length_map | apply page_texts_stripped].
Qed.

Lemma extract_text_returns_stripped_pages_witness :
  exists pages,
    extract_text_ignore_overlays (P ["in"; "a.pdf"]) scenario = (inr pages, scenario) /\
    length pages = length a_pdf /\
    Forall2 (fun pg s =>
               exists a b, raw_text pg = a ++ s ++ b /\ all_space a /\ all_space b
                           /\ no_outer_space s)
            a_pdf pages.
Proof.
  apply (extract_text_returns_stripped_pages scenario (P ["in"; "a.pdf"]) a_pdf);
    reflexivity.
Defined.

(** C4 as stated fails on a PDF that opens but has a page that does not
    load: the extractor returns no sequence at all, and the document is
    still open when the exception leaves it. *)
Lemma extract_text_unreadable_page_counterexample :
  (exists doc, fst (fitz_open (P ["d.pdf"]) damaged) = inr doc) /\
  (forall pages w', extract_text_ignore_overlays (P ["d.pdf"]) damaged <> (inr pages, w')) /\
  fst (extract_text_ignore_overlays (P ["d.pdf"]) damaged)
    = inl (PageLoadError (P ["d.pdf"]) 1) /\
  open_docs (snd (extract_text_ignore_overlays (P ["d.pdf"]) damaged)) = [P ["d.pdf"]].
Proof.
  split_and!.
  - eexists. reflexivity.
  - intros pages w' H. apply (f_equal fst) in H. vm_compute in H. discriminate.
  - reflexivity.
  - reflexivity.
Qed.

(** ** The skip condition (C10) *)

(** C10: when the extracted pages are all empty the task returns the
    failure ["No extractable text"] straight after the extraction: the
    world it leaves is the one the extractor left, whose file system and
    journal are those before the call, so no directory and no file has
    been created.  Conversely, no exception being worded like the fixed
    reason, a task that returns this failure found only empty pages and
    changed nothing. *)
Theorem no_extractable_text_changes_nothing
    (pdf_path input_root output_root : path) (w : world) :
  (forall pages w1,
     extract_text_ignore_overlays pdf_path w = (inr pages, w1) ->
     any pages = false ->
     process_pdf pdf_path input_root output_root w
       = ((pdf_path, false, Some (str "No extractable text")), w1) /\
     fs w1 = fs w /\ journal w1 = journal w /\ new_events w w1 = []) /\
  (forall w',
     process_pdf pdf_path input_root output_root w
       = ((pdf_path, false, Some (str "No extractable text")), w') ->
     (forall e, exn_text w e <> str "No extractable text") ->
     (exists pages,
        extract_text_ignore_overlays pdf_path w = (inr pages, w') /\
        any pages = false) /\
     fs w' = fs w /\ journal w' = journal w /\ new_events w w' = []).
Proof.
  assert (forall pages w1,
            extract_text_ignore_overlays pdf_path w = (inr pages, w1) ->
            fs w1 = fs w /\ journal w1 = journal w /\ new_events w w1 = []) as Hsame.
  { intros pages w1 Hex.
    pose proof (extract_fs pdf_path w) as (Hfs & Hj & _). rewrite Hex in Hfs, Hj.
    cbn [snd] in *. split_and!; try done.
    unfold new_events. rewrite Hj. apply drop_all. }
  split.
  - intros pages w1 Hex Hany. split; [|by apply (Hsame pages)].
    by rewrite process_pdf_run, Hex, Hany.
  - intros w' Hrun Hmsg.
    pose proof (process_pdf_effect pdf_path input_root output_root w) as (_ & _ & Ht & _).
    rewrite Hrun in Ht. cbn [snd] in Ht.
    destruct (extract_text_ignore_overlays pdf_path w) as [[e|pages] w1] eqn:Hex.
    + rewrite process_pdf_run, Hex in Hrun. injection Hrun as Hm <-.
      rewrite Ht in Hm. by destruct (Hmsg e).
    + destruct (any pages) eqn:Hany.
      * destruct (process_pdf_failure_raised pdf_path input_root output_root w
                    pages w1 Hex Hany) as (e & _ & Hres).
        { by rewrite Hrun. }
        rewrite Hrun in Hres. cbn [fst snd] in Hres. injection Hres as Hm.
        rewrite Ht in Hm. by destruct (Hmsg e).
      * rewrite process_pdf_run, Hex, Hany in Hrun. injection Hrun as <-.
        split; [by exists pages | by apply (Hsame pages)].
Qed.

Lemma no_extractable_text_changes_nothing_witness :
  process_pdf (P ["in"; "b.pdf"]) (P ["in"]) (P ["out"]) scenario
    = ((P ["in"; "b.pdf"], false, Some (str "No extractable text")), scenario) /\
  fs scenario = fs scenario /\ journal scenario = journal scenario /\
  new_events scenario scenario = [].
Proof.
  destruct (no_extractable_text_changes_nothing (P ["in"; "b.pdf"]) (P ["in"]) (P ["out"])
              scenario) as (Hskip & _).
  apply (Hskip [[]] scenario); reflexivity.
Defined.

(** ** The recovery writer (C1, C2, C6) *)

(** C1, as amended: for a PDF whose two stripped page texts are
    "CONFIDENTIAL" and the empty string, a task that succeeds leaves an
    output file whose bytes are exactly a newline followed by
    [--- PAGE 1 ---\nCONFIDENTIAL\n\n--- PAGE 2 ---\n\n]: every page
    contributes an empty line, its header line, its text and a newline. *)
Theorem two_page_output_bytes
    (pdf_path input_root output_root : path) (w : world) (doc : document) :
  fs w !! pdf_path = Some (File (Pdf doc)) ->
  page_texts doc = [str "CONFIDENTIAL"; []] ->
  result_ok (fst (process_pdf pdf_path input_root output_root w)) = true ->
  exists out_file,
    out_file_of pdf_path input_root output_root = Some out_file /\
    file_bytes (fs (snd (process_pdf pdf_path input_root output_root w))) out_file
      = Some (nl ++ str "--- PAGE 1 ---" ++ nl ++ str "CONFIDENTIAL" ++ nl
              ++ nl ++ str "--- PAGE 2 ---" ++ nl ++ nl).
Proof.
  intros Hp Htexts Hok.
  destruct (process_pdf_success _ _ _ _ _ Hok eq_refl)
    as (doc' & rel & w1 & Hp' & _ & _ & _ & Hrel & _ & _ & Hfs & _).
  rewrite Hp in Hp'. injection Hp' as <-.
  exists ((output_root ++ parent rel) ++ [out_name pdf_path]). split.
  - unfold out_file_of. by rewrite Hrel.
  - unfold file_bytes. rewrite Hfs, lookup_insert_eq, Htexts. reflexivity.
Qed.

Lemma two_page_output_bytes_witness :
  exists out_file,
    out_file_of (P ["in"; "a.pdf"]) (P ["in"]) (P ["out"]) = Some out_file /\
    file_bytes (fs (snd (process_pdf (P ["in"; "a.pdf"]) (P ["in"]) (P ["out"]) scenario)))
               out_file
      = Some (nl ++ str "--- PAGE 1 ---" ++ nl ++ str "CONFIDENTIAL" ++ nl
              ++ nl ++ str "--- PAGE 2 ---" ++ nl ++ nl).
Proof.
  apply (two_page_output_bytes _ _ _ scenario a_pdf); vm_compute; reflexivity.
Defined.

(** C1 as stated fails: in the scenario of the specification the bytes of
    [out/a_RECOVERED.txt] are not the expected text but a newline
    followed by it. *)
Lemma two_page_output_bytes_counterexample :
  page_texts a_pdf = [str "CONFIDENTIAL"; []] /\
  file_bytes (fs (snd (process_pdf (P ["in"; "a.pdf"]) (P ["in"]) (P ["out"]) scenario)))
             (P ["out"; "a_RECOVERED.txt"])
    <> Some expected_a /\
  file_bytes (fs (snd (process_pdf (P ["in"; "a.pdf"]) (P ["in"]) (P ["out"]) scenario)))
             (P ["out"; "a_RECOVERED.txt"])
    = Some (nl ++ expected_a).
Proof.
  split_and!; [reflexivity | | vm_compute; reflexivity].
  intros H. vm_compute in H. discriminate.
Qed.







(** ** The batch *)

Lemma run_tasks_paths input_root output_root order w :
  map task_path (fst (run_tasks input_root output_root order w)) = order.
Proof.
  revert w. induction order as [|pdf order IH]; intros w; [done |].
  cbn [run_tasks].
  pose proof (process_pdf_path pdf input_root output_root w) as Hp.
  destruct (process_pdf pdf input_root output_root w) as [r w1].
  specialize (IH w1). destruct (run_tasks input_root output_root order w1) as [rs w2].
  cbn [fst map] in *. unfold task_path at 1. by rewrite Hp, IH.
Qed.

Lemma run_tasks_stdout input_root output_root order w :
  stdout (snd (run_tasks input_root output_root order w)) = stdout w.
Proof.
  revert w. induction order as [|pdf order IH]; intros w; [done |].
  cbn [run_tasks].
  pose proof (process_pdf_effect pdf input_root output_root w) as (_ & _ & _ & Hs).
  destruct (process_pdf pdf input_root output_root w) as [r w1].
  specialize (IH w1). destruct (run_tasks input_root output_root order w1) as [rs w2].
  cbn [snd] in *. congruence.
Qed.

Lemma print_failures_run results w :
  print_failures results w
  = (inr tt, set_stdout (stdout w ++ failure_lines results) w).
Proof.
  revert w. induction results as [|[[pdf ok] err] results IH]; intros w.
  - cbn. unfold set_stdout. by rewrite app_nil_r, world_eta.
  - cbn [print_failures]. rewrite bind_run. destruct ok.
    + cbn [mret M_ret]. rewrite IH. by unfold failure_lines.
    + unfold print at 1. rewrite IH. unfold set_stdout, failure_lines.
      cbn [fs open_docs journal stdout exn_text map concat failure_line].
      do 2 f_equal. by rewrite <- !app_assoc.
Qed.

(** [main] when the output root can be made, PDFs are found and the pool
    can be created. *)
Lemma main_run sch input_root output_root threads w w0 :
  mkdir output_root w = (inr tt, w0) ->
  find_pdfs (fs w0) input_root <> [] ->
  (0 < threads)%Z ->
  let pdfs := find_pdfs (fs w0) input_root in
  let wb := set_stdout (stdout w0 ++ banner pdfs output_root threads) w0 in
  let results := fst (run_tasks input_root output_root (completion_order sch pdfs) wb) in
  let w1 := snd (run_tasks input_root output_root (completion_order sch pdfs) wb) in
  main sch input_root output_root threads w
  = (inr tt,
     set_stdout (stdout wb
                 ++ summary (length results) (recovered results)
                            (length results - recovered results)
                 ++ failure_lines results) w1).
Proof.
  intros Hmk Hne Hthreads. cbn zeta. unfold main.
  rewrite bind_run, Hmk, bind_run.
  destruct (find_pdfs (fs w0) input_root) as [|pdf pdfs] eqn:Hpdfs; [done |].
  rewrite bind_run. unfold print at 1. rewrite bind_run. unfold print at 1.
  rewrite bind_run. unfold print at 1. rewrite bind_run.
  replace (threads <=? 0)%Z with false by (symmetry; apply Z.leb_gt; lia).
  cbn [mret M_ret]. rewrite bind_run.
  set (wb := set_stdout _ (set_stdout _ (set_stdout _ w0))).
  set (wb' := set_stdout _ w0).
  assert (wb = wb') as ->.
  { subst wb wb'. unfold set_stdout, banner. cbn [fs open_docs journal stdout exn_text].
    f_equal. by rewrite <- !app_assoc. }
  pose proof (run_tasks_stdout input_root output_root
                (completion_order sch (pdf :: pdfs)) wb') as Hout.
  destruct (run_tasks input_root output_root (completion_order sch (pdf :: pdfs)) wb')
    as [results w1].
  cbn [fst snd] in *.
  rewrite bind_run. unfold print at 1. rewrite bind_run. unfold print at 1.
  rewrite bind_run. unfold print at 1. rewrite bind_run. unfold print at 1.
  rewrite print_failures_run. unfold set_stdout, summary, recovered.
  cbn [fs open_docs journal stdout exn_text]. rewrite Hout.
  do 2 f_equal. by rewrite <- !app_assoc.
Qed.

Lemma mkdir_stdout p w w' r : mkdir p w = (r, w') -> stdout w' = stdout w.
Proof.
  destruct r as [e|[]]; intros H.
  - by apply mkdir_raise in H as ->.
  - apply mkdir_ok in H as (_ & Hg & _). apply Hg.
Qed.


(** ** Exceptions stay inside the task (C3) *)



(** ** Files that are not PDFs (C8) *)






(** ** The PDF locator (C5) *)

Lemma fnmatch_star_spec lit nm :
  fnmatch_star lit nm = true <-> exists s, nm = s ++ lit.
Proof.
  unfold fnmatch_star. rewrite bool_decide_eq_true. split.
  - intros H. exists (take (length nm - length lit) nm).
    transitivity (take (length nm - length lit) nm ++ drop (length nm - length lit) nm);
      [by rewrite take_drop | by rewrite H].
  - intros [s ->]. rewrite length_app.
    replace (length s + length lit - length lit)%nat with (length s) by lia.
    apply drop_app_length.
Qed.

Lemma beneath_spec root q :
  beneath root q = true <-> exists rel, rel <> [] /\ q = root ++ rel.
Proof.
  unfold beneath. destruct (strip_prefix root q) as [rel|] eqn:H.
  - apply strip_prefix_spec in H as ->. destruct rel as [|c rel].
    + split; [done |]. intros (rel & Hne & Hq).
      rewrite app_nil_r in Hq. apply (f_equal length) in Hq.
      rewrite length_app in Hq. destruct rel; [done | simpl in Hq; lia].
    + split; [|done]. intros _. by exists (c :: rel).
  - split; [done |]. intros (rel & _ & Hq). apply strip_prefix_spec in Hq. congruence.
Qed.

Lemma elem_of_rglob m root lit q :
  q ∈ rglob m root lit <->
  is_dir m root = true /\ is_Some (m !! q) /\
  (exists rel, rel <> [] /\ q = root ++ rel) /\ (exists s, name q = s ++ lit).
Proof.
  unfold rglob. destruct (is_dir m root).
  - rewrite list_elem_of_filter, andb_true_iff, beneath_spec, fnmatch_star_spec.
    rewrite list_elem_of_fmap. split.
    + intros [[Hb Hm] ([q' x] & Hq & Hin)]. cbn in Hq. subst q'.
      apply elem_of_map_to_list in Hin.
      split_and!; [done | by exists x | done | done].
    + intros (_ & [x Hx] & Hb & Hm). split; [done |].
      exists (q, x). split; [done |]. by apply elem_of_map_to_list.
  - split; [by intros ?%elem_of_nil | by intros [? _]].
Qed.

Lemma NoDup_rglob m root lit : NoDup (rglob m root lit).
Proof.
  unfold rglob. destruct (is_dir m root); [|constructor].
  apply NoDup_filter, NoDup_fst_map_to_list.
Qed.

Lemma NoDup_find_pdfs m p : NoDup (find_pdfs m p).
Proof.
  unfold find_pdfs. destruct (_ && _); [apply NoDup_singleton | apply NoDup_rglob].
Qed.

(** C5, as amended: given a regular file whose extension is [.pdf]
    case-insensitively, the locator returns exactly that file; given any
    other path it returns, once each, the entries strictly beneath it,
    regular files and directories alike, whose name ends in [.pdf]
    (case-sensitive), which is nothing unless the path is a directory;
    given a nonexistent path it returns the empty sequence.  Being a
    function of the file system, it raises nothing. *)
Theorem find_pdfs_spec (m : gmap path node) (p : path) :
  (is_file m p = true -> lower (suffix p) = str ".pdf" -> find_pdfs m p = [p]) /\
  (~ (is_file m p = true /\ lower (suffix p) = str ".pdf") ->
   NoDup (find_pdfs m p) /\
   forall q,
     q ∈ find_pdfs m p <->
     is_dir m p = true /\ is_Some (m !! q) /\
     (exists rel, rel <> [] /\ q = p ++ rel) /\
     (exists s, name q = s ++ str ".pdf")) /\
  (m !! p = None -> find_pdfs m p = []).
Proof.
  split_and!.
  - intros Hf Hs. unfold find_pdfs. by rewrite Hf, bool_decide_eq_true_2.
  - intros Hnot. split; [apply NoDup_find_pdfs |]. intros q.
    unfold find_pdfs. destruct (is_file m p) eqn:Hf; cbn [andb].
    + rewrite bool_decide_eq_false_2 by (intros Hs; by apply Hnot).
      apply elem_of_rglob.
    + apply elem_of_rglob.
  - intros Hp. unfold find_pdfs, is_file, rglob, is_dir. by rewrite Hp.
Qed.

Lemma find_pdfs_spec_witness :
  find_pdfs (fs with_pdf_dir) (P ["in"; "a.pdf"]) = [P ["in"; "a.pdf"]] /\
  find_pdfs (fs with_pdf_dir) (P ["missing"]) = [].
Proof.
  destruct (find_pdfs_spec (fs with_pdf_dir) (P ["in"; "a.pdf"])) as (Hfile & _).
  destruct (find_pdfs_spec (fs with_pdf_dir) (P ["missing"])) as (_ & _ & Hnone).
  split; [apply Hfile | apply Hnone]; reflexivity.
Defined.

(** C5 as stated fails on a directory whose name ends in [.pdf]: the
    locator returns it although it is not a file. *)
Lemma find_pdfs_directory_counterexample :
  P ["in"; "x.pdf"] ∈ find_pdfs (fs with_pdf_dir) (P ["in"]) /\
  is_file (fs with_pdf_dir) (P ["in"; "x.pdf"]) = false /\
  fs with_pdf_dir !! P ["in"; "x.pdf"] = Some Dir.
Proof.
  split_and!; [|reflexivity..].
  apply list_elem_of_In. vm_compute. auto.
Qed.

(** ** No PDFs (C9) *)

(** C9, as amended: when the output root can be made and no PDF is
    located, the program prints ["No PDFs found."] and nothing else,
    returns (exit status 0) and has created or written no file: all it
    did to the file system is the creation of the output root and of its
    missing parents, which happens before the search; if the output root
    already was a directory the file system is untouched. *)
Theorem main_without_pdfs
    (sch : scheduler) (input_root output_root : path) (threads : Z) (w w0 : world) :
  mkdir output_root w = (inr tt, w0) ->
  find_pdfs (fs w0) input_root = [] ->
  main sch input_root output_root threads w
    = (inr tt, set_stdout (stdout w ++ str "No PDFs found." ++ nl) w0) /\
  exit_status (fst (main sch input_root output_root threads w)) = 0%Z /\
  Forall (fun ev => exists q, ev = EvMkdir q) (new_events w w0) /\
  (forall q, fs w0 !! q <> fs w !! q ->
             fs w !! q = None /\ fs w0 !! q = Some Dir /\ q `prefix_of` output_root) /\
  (is_dir (fs w) output_root = true -> w0 = w).
Proof.
  intros Hmk Hnone.
  assert (main sch input_root output_root threads w
          = (inr tt, set_stdout (stdout w ++ str "No PDFs found." ++ nl) w0)) as Hmain.
  { unfold main. rewrite bind_run, Hmk, bind_run, Hnone. unfold print.
    by rewrite (mkdir_stdout _ _ _ _ Hmk). }
  split_and!.
  - exact Hmain.
  - by rewrite Hmain.
  - apply mkdir_ok in Hmk as (_ & Hg & _).
    destruct (grows_journal _ _ Hg) as (evs & Hj & Hev).
    unfold new_events. by rewrite Hj, drop_app_length.
  - intros q Hq. apply mkdir_ok in Hmk as (_ & Hg & Hpre & _).
    destruct (fs w !! q) as [x|] eqn:Hx.
    + by rewrite (grows_old _ _ Hg q x Hx) in Hq.
    + destruct (fs w0 !! q) as [y|] eqn:Hy; [|done].
      split_and!; [done | | apply Hpre; [done | by rewrite Hy]].
      rewrite <- Hy. apply (grows_new _ _ Hg); [done | by rewrite Hy].
  - intros Hd. rewrite (mkdir_dir _ _ Hd) in Hmk. by injection Hmk.
Qed.

Lemma main_without_pdfs_witness :
  main in_order (P ["in"]) (P ["UNREDACTED_OUTPUT"]) 3 bare
    = (inr tt, set_stdout (stdout bare ++ str "No PDFs found." ++ nl)
                 (snd (mkdir (P ["UNREDACTED_OUTPUT"]) bare))) /\
  exit_status (fst (main in_order (P ["in"]) (P ["UNREDACTED_OUTPUT"]) 3 bare)) = 0%Z.
Proof.
  destruct (main_without_pdfs in_order (P ["in"]) (P ["UNREDACTED_OUTPUT"]) 3 bare
              (snd (mkdir (P ["UNREDACTED_OUTPUT"]) bare)))
    as (Hmain & Hexit & _).
  - vm_compute. reflexivity.
  - vm_compute. reflexivity.
  - split; [exact Hmain | exact Hexit].
Defined.

(** C9 as stated fails when the output root does not exist yet: no PDF
    is found, the message is printed and the program returns, but the
    directory [UNREDACTED_OUTPUT] has been created. *)
Lemma main_without_pdfs_counterexample :
  find_pdfs (fs (snd (mkdir (P ["UNREDACTED_OUTPUT"]) bare))) (P ["in"]) = [] /\
  fst (main in_order (P ["in"]) (P ["UNREDACTED_OUTPUT"]) 3 bare) = inr tt /\
  stdout (snd (main in_order (P ["in"]) (P ["UNREDACTED_OUTPUT"]) 3 bare))
    = str "No PDFs found." ++ nl /\
  fs bare !! P ["UNREDACTED_OUTPUT"] = None /\
  fs (snd (main in_order (P ["in"]) (P ["UNREDACTED_OUTPUT"]) 3 bare))
    !! P ["UNREDACTED_OUTPUT"] = Some Dir /\
  journal (snd (main in_order (P ["in"]) (P ["UNREDACTED_OUTPUT"]) 3 bare))
    = [EvMkdir (P ["UNREDACTED_OUTPUT"])].
Proof. split_and!; vm_compute; reflexivity. Qed.

(** ** Running the tool again (C7) *)

(** *** Directories that cannot be made *)

Lemma wf_prefix_dir m (x rel : path) :
  wf_fs m -> is_Some (m !! (x ++ rel)) -> rel <> [] -> m !! x = Some Dir.
Proof.
  intros [_ Hwf]. induction rel as [|c rel IH] using rev_ind; [done |].
  intros Hs _. rewrite app_assoc in Hs. apply Hwf in Hs.
  destruct (decide (rel = [])) as [->|Hne].
  - by rewrite app_nil_r in Hs.
  - apply IH; [by rewrite Hs | done].
Qed.

Lemma os_mkdir_cases p w e w' :
  os_mkdir p w = (inl e, w') ->
  (e = FileExistsError p /\ is_Some (fs w !! p)) \/
  (e = FileNotFoundError p /\ fs w !! p = None /\ (p = [] \/ fs w !! parent p = None)) \/
  (e = NotADirectoryError p /\ fs w !! p = None /\
   exists d, fs w !! parent p = Some (File d)).
Proof.
  unfold os_mkdir. destruct (fs w !! p) as [x|] eqn:Hp.
  - intros [= <- _]. left. by eauto.
  - destruct p as [|c p]; [intros [= <- _]; right; left; by auto |].
    destruct (fs w !! parent (c :: p)) as [[|d]|]; [done | |].
    + intros [= <- _]. right. right. by eauto.
    + intros [= <- _]. right. left. by auto.
Qed.

(** A regular file on the way: [mkdir] raises and changes nothing. *)
Lemma mkdir_rev_blocked rp w x d :
  wf_fs (fs w) -> x `prefix_of` rev rp -> fs w !! x = Some (File d) ->
  exists e, mkdir_rev rp w = (inl e, w).
Proof.
  intros Hwf. revert x d. induction rp as [|c rp IH]; intros x d Hpre Hx.
  - apply prefix_nil_inv in Hpre as ->. destruct Hwf as [Hroot _]. congruence.
  - cbn [mkdir_rev]. change (rev (c :: rp)) with (rev rp ++ [c]) in *.
    remember (rev rp ++ [c]) as p eqn:Hp.
    assert (parent p = rev rp) as Hparent by (subst p; apply parent_snoc).
    assert (p <> []) as Hpne by (subst p; by destruct (rev rp)).
    destruct (decide (x = p)) as [->|Hxp].
    + unfold mkdir_level, os_mkdir, is_dir. rewrite Hx. cbn. rewrite Hx. by eauto.
    + assert (x `prefix_of` rev rp) as Hpre'.
      { destruct Hpre as [k Hk]. destruct k as [|c' k] using rev_ind.
        - rewrite app_nil_r in Hk. congruence.
        - rewrite Hp, app_assoc in Hk. apply app_inj_tail in Hk as [-> _].
          by exists k. }
      assert (fs w !! p = None) as Hpabs.
      { destruct (fs w !! p) as [y|] eqn:Hy; [|done].
        destruct Hpre as [k ->].
        assert (fs w !! x = Some Dir); [|congruence].
        apply (wf_prefix_dir _ x k Hwf); [by rewrite Hy |].
        intros ->. by rewrite app_nil_r in Hxp. }
      unfold mkdir_level at 1.
      destruct (os_mkdir p w) as [[e|[]] w1] eqn:Hos.
      * pose proof (os_mkdir_raise _ _ _ _ Hos) as ->.
        apply os_mkdir_cases in Hos as [[-> [y Hy]]|[(-> & _ & Hpar)|(-> & _ & _)]].
        -- congruence.
        -- rewrite bind_run. destruct (IH x d Hpre' Hx) as [e He]. rewrite He. by eauto.
        -- unfold is_dir. rewrite Hpabs. by eauto.
      * apply os_mkdir_ok in Hos as (_ & Hpar & _). rewrite Hparent in Hpar.
        destruct Hpre' as [k Hk]. destruct (decide (k = [])) as [->|Hk'].
        -- rewrite app_nil_r in Hk. congruence.
        -- assert (fs w !! x = Some Dir); [|congruence].
           apply (wf_prefix_dir _ x k Hwf); [by rewrite <- Hk, Hpar | done].
Qed.

(** And nothing else makes [mkdir] raise. *)
Lemma mkdir_rev_raise_blocked rp w e w' :
  wf_fs (fs w) -> mkdir_rev rp w = (inl e, w') ->
  exists x d, x `prefix_of` rev rp /\ fs w !! x = Some (File d).
Proof.
  intros Hwf. revert e w'. induction rp as [|c rp IH]; intros e w'.
  - cbn [mkdir_rev rev]. unfold mkdir_level, os_mkdir, is_dir.
    destruct Hwf as [Hroot _]. rewrite Hroot. cbn. rewrite Hroot. done.
  - cbn [mkdir_rev]. change (rev (c :: rp)) with (rev rp ++ [c]) in *.
    remember (rev rp ++ [c]) as p eqn:Hp.
    assert (parent p = rev rp) as Hparent by (subst p; apply parent_snoc).
    assert (p <> []) as Hpne by (subst p; by destruct (rev rp)).
    unfold mkdir_level at 1.
    destruct (os_mkdir p w) as [[e1|[]] w1] eqn:Hos; [|done].
    pose proof (os_mkdir_raise _ _ _ _ Hos) as ->.
    apply os_mkdir_cases in Hos
      as [[-> [y Hy]]|[(-> & Hpabs & Hpar)|(-> & _ & d & Hpar)]].
    + unfold is_dir. rewrite Hy. destruct y as [|d]; [done |]. intros _.
      by exists p, d.
    + destruct Hpar as [|Hpar]; [done |]. rewrite bind_run.
      pose proof (mkdir_rev_spec rp w) as Hspec.
      destruct (mkdir_rev rp w) as [[e2|[]] w2] eqn:Hrec.
      * intros _. destruct (IH _ _ eq_refl) as (x & d & Hpre & Hx).
        exists x, d. split; [|done]. rewrite Hp. by apply prefix_app_r.
      * destruct Hspec as (Hd & _ & Hpre & _).
        assert (fs w2 !! p = None) as Hpabs2.
        { destruct (fs w2 !! p) as [y|] eqn:Hy; [|done].
          assert (p `prefix_of` rev rp) as Hpp by (apply Hpre; [done | by rewrite Hy]).
          apply prefix_length in Hpp. subst p. rewrite length_app in Hpp.
          simpl in Hpp. lia. }
        unfold is_dir in Hd. destruct (fs w2 !! rev rp) as [[|?]|] eqn:Hrp; try done.
        unfold mkdir_level. by rewrite os_mkdir_fresh by (try done; by rewrite Hparent).
    + unfold is_dir. intros _. exists (rev rp), d. rewrite Hparent in Hpar.
      split; [|done]. rewrite Hp. by apply prefix_app_r.
Qed.

Lemma mkdir_blocked p w x d :
  wf_fs (fs w) -> x `prefix_of` p -> fs w !! x = Some (File d) ->
  exists e, mkdir p w = (inl e, w).
Proof.
  intros Hwf Hpre Hx. unfold mkdir. apply (mkdir_rev_blocked _ _ x d); try done.
  by rewrite rev_involutive.
Qed.

Lemma mkdir_raise_blocked p w e w' :
  wf_fs (fs w) -> mkdir p w = (inl e, w') ->
  exists x d, x `prefix_of` p /\ fs w !! x = Some (File d).
Proof.
  intros Hwf H. unfold mkdir in H.
  destruct (mkdir_rev_raise_blocked _ _ _ _ Hwf H) as (x & d & Hpre & Hx).
  rewrite rev_involutive in Hpre. by eauto.
Qed.

(** ** Running the tool again (C7 continued) *)

Lemma task_step_evolves f m m' : task_step f m m' -> evolves m m'.
Proof.
  intros Hstep. split_and!.
  - intros x Hx. step_at Hstep x; congruence.
  - intros x d Hx. step_at Hstep x.
    + exists d. congruence.
    + congruence.
    + by eauto.
  - intros x doc Hx. step_at Hstep x; congruence.
Qed.

Lemma evolves_refl m : evolves m m.
Proof. split_and!; by eauto. Qed.

Lemma evolves_trans m1 m2 m3 : evolves m1 m2 -> evolves m2 m3 -> evolves m1 m3.
Proof.
  intros (D1 & F1 & P1) (D2 & F2 & P2). split_and!.
  - by auto.
  - intros x d Hx. destruct (F1 x d Hx) as [d' Hd']. by eauto.
  - by auto.
Qed.

(** A PDF found after the run was there, and found, before it. *)
Lemma find_pdfs_evolves m m' input_root q doc :
  wf_fs m -> evolves m m' ->
  m' !! q = Some (File (Pdf doc)) ->
  q ∈ find_pdfs m' input_root -> q ∈ find_pdfs m input_root.
Proof.
  intros Hwf (Hdir & Hfile & Hpdf) Hq Hin. pose proof (Hpdf _ _ Hq) as Hq0.
  unfold find_pdfs in *.
  destruct (is_file m' input_root && bool_decide (lower (suffix input_root) = str ".pdf"))
    eqn:Hsingle.
  - apply list_elem_of_singleton in Hin as ->.
    apply andb_true_iff in Hsingle as [_ Hs]. unfold is_file. rewrite Hq0, Hs.
    apply list_elem_of_here.
  - apply elem_of_rglob in Hin as (Hd & _ & (rel & Hrel & ->) & Hname).
    assert (m !! input_root = Some Dir) as Hroot.
    { apply (wf_prefix_dir m input_root rel Hwf); [by rewrite Hq0 | done]. }
    unfold is_file. rewrite Hroot. cbn [andb].
    apply elem_of_rglob. unfold is_dir. rewrite Hroot.
    split_and!; [done | by rewrite Hq0 | by exists rel | done].
Qed.

Lemma wf_fs_check_sound m : wf_fs_check m = true -> wf_fs m.
Proof.
  unfold wf_fs_check. intros [Hroot Hall]%andb_true_iff. split.
  - unfold is_dir in Hroot. by destruct (m !! []) as [[|?]|].
  - intros p c [x Hx]. rewrite forallb_forall in Hall.
    specialize (Hall (p ++ [c], x)). cbn [fst] in Hall.
    rewrite parent_snoc in Hall.
    assert (is_dir m p = true) as Hd.
    { destruct (p ++ [c]) eqn:Hpc; [by destruct p |]. apply Hall.
      apply list_elem_of_In. by apply elem_of_map_to_list. }
    unfold is_dir in Hd. by destruct (m !! p) as [[|?]|].
Qed.

Section Rerun.

(** The two runs are given the same input path and output root. *)
Context (input_root output_root : path).

Lemma settled_of_done q m :
  wf_fs m -> done_with q input_root output_root m ->
  settled q input_root output_root m.
Proof.
  intros Hwf Hdone w <-. rewrite process_pdf_run, extract_run.
  destruct Hdone as [Hbad|(pages & (doc & Hq & Hr & <- & Hany) & Hrest)].
  - destruct (fs w !! q) as [[|[doc|c]]|] eqn:Hq; try done.
    destruct (forallb readable doc) eqn:Hr; [|done].
    destruct (any (page_texts doc)) eqn:Hany; [|done].
    destruct (Hbad (page_texts doc)). by exists doc.
  - rewrite Hq, Hr, Hany.
    destruct (strip_prefix input_root q) as [rel|]; [|done]. cbn zeta in *.
    set (out_dir := output_root ++ parent rel) in *.
    set (f := out_dir ++ [out_name q]) in *.
    destruct Hrest as [(x & d & Hpre & Hx)|[Hd Hf]].
    + destruct (mkdir_blocked out_dir w x d Hwf Hpre Hx) as [e ->]. done.
    + rewrite (mkdir_dir _ _ Hd).
      assert (fs w !! parent f = Some Dir) as Hpar.
      { subst f. rewrite parent_snoc. unfold is_dir in Hd.
        by destruct (fs w !! out_dir) as [[|?]|]. }
      destruct Hf as [Hf|Hf].
      * unfold open_w. by rewrite Hf.
      * rewrite open_w_run by (done || by rewrite Hf).
        destruct (write_pages_run f (page_texts doc) 1
                    (set_fs (<[f := File (Raw [])]> (fs w)) (EvCreate f) w))
          as (w4 & Hrun & Hfs & _).
        rewrite Hrun.
        assert (fs w4 = fs w) as Hw4.
        { rewrite Hfs. cbn [fs set_fs]. rewrite content_at_insert.
          destruct (page_texts doc); [done |].
          rewrite insert_insert_eq. cbn [app]. by apply insert_id. }
        by destruct (snd (written (page_texts doc) 1)).
Qed.

Lemma done_after_task q w :
  wf_fs (fs w) ->
  done_with q input_root output_root (fs (snd (process_pdf q input_root output_root w))).
Proof.
  intros Hwf. rewrite process_pdf_run, extract_run.
  assert (forall v, fs v = fs w ->
                    (forall doc, fs w !! q = Some (File (Pdf doc)) ->
                                 forallb readable doc = true ->
                                 any (page_texts doc) = false) ->
                    done_with q input_root output_root (fs v)) as Hbad.
  { intros v Hv H. left. intros pages (doc & Hq & Hr & <- & Hany).
    rewrite Hv in Hq. specialize (H doc Hq Hr). congruence. }
  destruct (fs w !! q) as [[|[doc|c]]|] eqn:Hq;
    try (apply Hbad; [done | intros; congruence]).
  destruct (forallb readable doc) eqn:Hr;
    [|apply Hbad; [done | intros doc' [= <-]; congruence]].
  destruct (any (page_texts doc)) eqn:Hany;
    [|apply Hbad; [done | intros doc' [= <-]; congruence]].
  assert (good_pdf (fs w) q (page_texts doc)) as Hgood by (by exists doc).
  destruct (strip_prefix input_root q) as [rel|] eqn:Hrel.
  2: { cbn [snd]. right. exists (page_texts doc). by rewrite Hrel. }
  cbn zeta.
  set (out_dir := output_root ++ parent rel).
  set (f := out_dir ++ [out_name q]).
  destruct (mkdir out_dir w) as [[e|[]] w2] eqn:Hmk.
  { destruct (mkdir_raise_blocked _ _ _ _ Hwf Hmk) as (x & d & Hpre & Hx).
    apply mkdir_raise in Hmk as ->. cbn [snd]. right. exists (page_texts doc).
    split; [done |]. rewrite Hrel. cbn zeta. left. by eauto. }
  apply mkdir_ok in Hmk as (Hod & Hg & _ & _).
  assert (good_pdf (fs w2) q (page_texts doc)) as Hgood2.
  { exists doc. split_and!; try done. by apply (grows_old _ _ Hg). }
  destruct (open_w f w2) as [[e|[]] w3] eqn:Hop.
  { pose proof (open_w_raise _ _ _ _ Hop) as ->. cbn [snd]. right.
    exists (page_texts doc). split; [done |]. rewrite Hrel. cbn zeta. right.
    split; [done |]. left. revert Hop. unfold open_w.
    assert (fs w2 !! parent f = Some Dir) as ->.
    { subst f. rewrite parent_snoc. unfold is_dir in Hod.
      by destruct (fs w2 !! out_dir) as [[|?]|]. }
    subst f out_dir. by destruct (fs w2 !! _) as [[|?]|]. }
  apply open_w_ok in Hop as (Hnd & Hpar & ->).
  destruct (write_pages_run f (page_texts doc) 1
              (set_fs (<[f := File (Raw [])]> (fs w2)) (EvCreate f) w2))
    as (w4 & Hrun & Hfs & _).
  rewrite Hrun.
  assert (fs w4 = <[f := File (Raw (fst (written (page_texts doc) 1)))]> (fs w2)) as Hfs4.
  { rewrite Hfs. cbn [fs set_fs]. rewrite content_at_insert.
    destruct (page_texts doc); [done |]. by rewrite insert_insert_eq. }
  assert (done_with q input_root output_root (fs w4)) as Hdone.
  { rewrite Hfs4. destruct (decide (q = f)) as [Hqf|Hqf].
    - left. intros pages (doc' & Hq' & _). rewrite Hqf, lookup_insert_eq in Hq'. done.
    - right. exists (page_texts doc). split.
      + exists doc. split_and!; try done. rewrite lookup_insert_ne by done.
        by apply (grows_old _ _ Hg).
      + rewrite Hrel. cbn zeta. right. split.
        * unfold is_dir. rewrite lookup_insert_ne; [done |].
          subst f. intros Heq. symmetry in Heq. by apply snoc_neq in Heq.
        * right. apply lookup_insert_eq. }
  by destruct (snd (written (page_texts doc) 1)).
Qed.

Lemma done_stable q fr m m' :
  done_with q input_root output_root m ->
  task_step fr m m' ->
  (forall f, out_file_of q input_root output_root = Some f -> fr <> Some f) ->
  done_with q input_root output_root m'.
Proof.
  intros Hdone Hstep Hfr.
  assert (forall x, m !! x = Some Dir -> m' !! x = Some Dir) as Hdir.
  { intros x Hx. step_at Hstep x; congruence. }
  assert (forall pages, ~ good_pdf m q pages -> ~ good_pdf m' q pages) as Hkeep.
  { intros pages Hbad (doc & Hq & Hr & Hp & Hany). apply Hbad. exists doc.
    split_and!; try done. step_at Hstep q; congruence. }
  destruct Hdone as [Hbad|(pages & Hgood & Hrest)]; [left; by auto |].
  assert (good_pdf m' q pages \/ forall pages', ~ good_pdf m' q pages') as [Hgood'|Hbad'].
  { destruct Hgood as (doc0 & Hq0 & Hr0 & Hp0 & Hany0).
    step_at Hstep q.
    - left. exists doc0. split_and!; try done. congruence.
    - congruence.
    - right. intros pages' (doc & Hq & _). congruence. }
  2: by left.
  right. exists pages. split; [done |]. unfold out_file_of in Hfr.
  destruct (strip_prefix input_root q) as [rel|]; [|done]. cbn zeta in *.
  cbn [mbind option_bind] in Hfr.
  destruct Hrest as [(x & d & Hpre & Hx)|[Hd Hf]].
  - left. step_at Hstep x; try congruence.
    + exists x, d. split; [done | congruence].
    + by eauto.
  - right. split.
    + unfold is_dir in *.
      destruct (m !! (output_root ++ parent rel)) as [[|?]|] eqn:Hod; try done.
      by rewrite (Hdir _ Hod).
    + destruct Hf as [Hf|Hf]; [left; by apply Hdir |]. right.
      step_at Hstep ((output_root ++ parent rel) ++ [out_name q]);
        [congruence | congruence |].
      by destruct (Hfr _ eq_refl).
Qed.

Lemma run_tasks_evolves order w :
  wf_fs (fs w) ->
  evolves (fs w) (fs (snd (run_tasks input_root output_root order w))) /\
  wf_fs (fs (snd (run_tasks input_root output_root order w))).
Proof.
  revert w. induction order as [|r order IH]; intros w Hwf.
  - split; [apply evolves_refl | done].
  - cbn [run_tasks].
    pose proof (process_pdf_effect r input_root output_root w) as (Hstep & Hwf' & _).
    destruct (process_pdf r input_root output_root w) as [res w1]. cbn [snd] in *.
    destruct (IH w1 (Hwf' Hwf)) as [Hev Hwf2].
    destruct (run_tasks input_root output_root order w1) as [rs w2]. cbn [snd] in *.
    split; [|done]. eapply evolves_trans; [by eapply task_step_evolves | done].
Qed.

Lemma run_tasks_stable q order w :
  done_with q input_root output_root (fs w) ->
  (forall r f, r ∈ order -> out_file_of q input_root output_root = Some f ->
               out_file_of r input_root output_root <> Some f) ->
  done_with q input_root output_root
    (fs (snd (run_tasks input_root output_root order w))).
Proof.
  revert w. induction order as [|r order IH]; intros w Hdone Hfree; [done |].
  cbn [run_tasks].
  pose proof (process_pdf_effect r input_root output_root w) as (Hstep & _).
  destruct (process_pdf r input_root output_root w) as [res w1]. cbn [snd] in *.
  assert (done_with q input_root output_root (fs w1)) as Hdone1.
  { eapply done_stable; [done | done |]. intros f Hf. apply (Hfree r f); [|done].
    apply list_elem_of_here. }
  specialize (IH w1 Hdone1).
  destruct (run_tasks input_root output_root order w1) as [rs w2]. cbn [snd] in *.
  apply IH. intros r' f Hr'. apply Hfree. by apply list_elem_of_further.
Qed.

Lemma run_tasks_done order w q :
  wf_fs (fs w) ->
  NoDup (map (fun p => out_file_of p input_root output_root) order) ->
  q ∈ order ->
  done_with q input_root output_root
    (fs (snd (run_tasks input_root output_root order w))).
Proof.
  revert w. induction order as [|r order IH]; intros w Hwf Hnd Hq.
  - by apply elem_of_nil in Hq.
  - cbn [map] in Hnd. apply NoDup_cons in Hnd as [Hfresh Hnd].
    pose proof (done_after_task r w Hwf) as Hdone.
    pose proof (process_pdf_effect r input_root output_root w) as (_ & Hwf' & _).
    pose proof (run_tasks_stable r order
                  (snd (process_pdf r input_root output_root w)) Hdone) as Hstable.
    cbn [run_tasks].
    destruct (process_pdf r input_root output_root w) as [res w1]. cbn [snd] in *.
    specialize (IH w1 (Hwf' Hwf) Hnd).
    destruct (run_tasks input_root output_root order w1) as [rs w2]. cbn [snd] in *.
    apply elem_of_cons in Hq as [->|Hq]; [|by apply IH].
    apply Hstable. intros r' f Hr' Hf Hf'. apply Hfresh.
    rewrite Hf, <- Hf'. apply list_elem_of_fmap. by exists r'.
Qed.

Lemma run_tasks_settled order m w :
  (forall q, q ∈ order -> settled q input_root output_root m) ->
  fs w = m ->
  fs (snd (run_tasks input_root output_root order w)) = m.
Proof.
  revert w. induction order as [|r order IH]; intros w Hall Hw; [done |].
  cbn [run_tasks].
  pose proof (Hall r (list_elem_of_here _ _) w Hw) as Hr.
  destruct (process_pdf r input_root output_root w) as [res w1]. cbn [snd] in *.
  assert (fs (snd (run_tasks input_root output_root order w1)) = m) as H.
  { apply IH; [|done]. intros q Hq. apply Hall. by apply list_elem_of_further. }
  by destruct (run_tasks input_root output_root order w1).
Qed.

(** The file system [main] leaves is the one its tasks leave, started
    after the creation of the output root. *)
Lemma main_fs sch threads w :
  exists v,
    fs v = fs (snd (mkdir output_root w)) /\
    fs (snd (main sch input_root output_root threads w))
    = fs (snd (run_tasks input_root output_root
                 (batch_order sch input_root output_root threads w) v)).
Proof.
  unfold main, batch_order. rewrite bind_run.
  destruct (mkdir output_root w) as [[e|[]] w0] eqn:Hmk.
  { by exists w0. }
  rewrite bind_run.
  destruct (find_pdfs (fs w0) input_root) as [|pdf pdfs] eqn:Hpdfs.
  { exists w0. split; [done |].
    assert (completion_order sch [] = []) as ->.
    { apply Permutation_nil_r. apply completion_perm. }
    by destruct (threads <=? 0)%Z. }
  rewrite bind_run. unfold print at 1. rewrite bind_run. unfold print at 1.
  rewrite bind_run. unfold print at 1. rewrite bind_run.
  set (wb := set_stdout _ (set_stdout _ (set_stdout _ w0))).
  exists wb. split; [done |].
  destruct (threads <=? 0)%Z; [done |].
  cbn [mret M_ret]. rewrite bind_run.
  destruct (run_tasks input_root output_root (completion_order sch (pdf :: pdfs)) wb)
    as [results w1].
  rewrite bind_run. unfold print at 1. rewrite bind_run. unfold print at 1.
  rewrite bind_run. unfold print at 1. rewrite bind_run. unfold print at 1.
  by rewrite print_failures_run.
Qed.

Lemma batch_order_subset sch threads w q :
  q ∈ batch_order sch input_root output_root threads w ->
  exists w0,
    mkdir output_root w = (inr tt, w0) /\ (threads <=? 0)%Z = false /\
    q ∈ find_pdfs (fs w0) input_root.
Proof.
  unfold batch_order. destruct (mkdir output_root w) as [[e|[]] w0].
  - by intros ?%elem_of_nil.
  - destruct (threads <=? 0)%Z; [by intros ?%elem_of_nil |].
    intros Hq. exists w0. split_and!; try done.
    by rewrite <- (completion_perm sch).
Qed.

(** C7, as amended: a task run a second time leaves the file system as
    its first run left it (the output file is truncated and written
    afresh, never appended to); and when no two located PDFs share an
    output file, running the tool twice on the same input path and
    output root, whatever the order in which the pool completes the
    tasks in either run, leaves after the second run exactly the file
    system of the first: every output file is byte-identical. *)
Theorem second_run_changes_nothing
    (sch1 sch2 : scheduler) (threads : Z) (w : world) :
  wf_fs (fs w) ->
  NoDup (map (fun p => out_file_of p input_root output_root)
             (find_pdfs (fs (snd (mkdir output_root w))) input_root)) ->
  (forall pdf v,
     wf_fs (fs v) ->
     fs (snd (process_pdf pdf input_root output_root
                (snd (process_pdf pdf input_root output_root v))))
     = fs (snd (process_pdf pdf input_root output_root v))) /\
  fs (snd (main sch2 input_root output_root threads
             (snd (main sch1 input_root output_root threads w))))
  = fs (snd (main sch1 input_root output_root threads w)).
Proof.
  intros Hwf Hnd. split.
  { intros pdf v Hv.
    pose proof (process_pdf_effect pdf input_root output_root v) as (_ & Hwf' & _).
    apply (settled_of_done pdf); [by apply Hwf' | | done].
    by apply done_after_task. }
  destruct (main_fs sch1 threads w) as (v1 & Hv1 & Hrun1).
  set (w1 := snd (main sch1 input_root output_root threads w)) in *.
  destruct (main_fs sch2 threads w1) as (v2 & Hv2 & Hrun2).
  rewrite Hrun2.
  destruct (mkdir output_root w) as [[e|[]] w0] eqn:Hmk.
  - (* the output root cannot be made: neither run gets any further *)
    assert (fs w1 = fs w) as Hw1.
    { rewrite Hrun1. unfold batch_order. rewrite Hmk. cbn [run_tasks snd].
      rewrite Hv1. by rewrite (mkdir_raise _ _ _ _ Hmk). }
    destruct (mkdir_raise_blocked _ _ _ _ Hwf Hmk) as (x & d & Hpre & Hx).
    destruct (mkdir_blocked output_root w1 x d) as [e' Hmk'];
      [by rewrite Hw1 | done | by rewrite Hw1 |].
    unfold batch_order. rewrite Hmk'. cbn [run_tasks snd].
    rewrite Hv2. by rewrite Hmk'.
  - cbn [snd] in *.
    pose proof (mkdir_ok _ _ _ Hmk) as (Hod & Hg & _ & Hwf0).
    specialize (Hwf0 Hwf).
    assert (wf_fs (fs v1)) as Hwfv1 by (by rewrite Hv1).
    destruct (run_tasks_evolves
                (batch_order sch1 input_root output_root threads w) v1 Hwfv1)
      as [Hev Hwf1].
    rewrite <- Hrun1 in Hev, Hwf1. rewrite Hv1 in Hev.
    assert (is_dir (fs w1) output_root = true) as Hod1.
    { unfold is_dir in *. destruct (fs w0 !! output_root) as [[|?]|] eqn:Ho; try done.
      destruct Hev as (Hdir & _). by rewrite (Hdir _ Ho). }
    pose proof (mkdir_dir _ _ Hod1) as Hmk1. rewrite Hmk1 in Hv2. cbn [snd] in Hv2.
    apply run_tasks_settled; [|done].
    intros q Hq. apply settled_of_done; [done |].
    apply batch_order_subset in Hq as (w0' & Hmk1' & Hthreads & Hq).
    rewrite Hmk1 in Hmk1'. injection Hmk1' as <-.
    destruct (fs w1 !! q) as [[|[doc|c]]|] eqn:Hq1;
      try (left; intros pages (doc' & Hq' & _); congruence).
    assert (q ∈ find_pdfs (fs w0) input_root) as Hq0
      by (by apply (find_pdfs_evolves _ (fs w1) _ _ doc)).
    assert (batch_order sch1 input_root output_root threads w
            = completion_order sch1 (find_pdfs (fs w0) input_root)) as Hord.
    { unfold batch_order. by rewrite Hmk, Hthreads. }
    rewrite Hrun1, Hord. apply run_tasks_done; [done | |].
    + by rewrite (Permutation_map _ (completion_perm sch1 _)).
    + by rewrite (completion_perm sch1).
Qed.

End Rerun.

Lemma second_run_changes_nothing_witness :
  (forall pdf v,
     wf_fs (fs v) ->
     fs (snd (process_pdf pdf (P ["in"]) (P ["out"])
                (snd (process_pdf pdf (P ["in"]) (P ["out"]) v))))
     = fs (snd (process_pdf pdf (P ["in"]) (P ["out"]) v))) /\
  fs (snd (main in_reverse (P ["in"]) (P ["out"]) 2
             (snd (main in_order (P ["in"]) (P ["out"]) 2 with_junk))))
  = fs (snd (main in_order (P ["in"]) (P ["out"]) 2 with_junk)).
Proof.
  apply (second_run_changes_nothing (P ["in"]) (P ["out"]) in_order in_reverse 2
           with_junk).
  - apply wf_fs_check_sound. vm_compute. reflexivity.
  - apply (bool_decide_unpack _). vm_compute. exact I.
Defined.

(** C7 as stated fails for [in/.pdf] and [in/.pdf.pdf], both written to
    [out/.pdf_RECOVERED.txt]: the file holds the text of whichever task
    came last, so two runs whose tasks complete in different orders leave
    different bytes. *)
Lemma second_run_differs_counterexample :
  out_file_of (P ["in"; ".pdf"]) (P ["in"]) (P ["out"])
    = Some (P ["out"; ".pdf_RECOVERED.txt"]) /\
  out_file_of (P ["in"; ".pdf.pdf"]) (P ["in"]) (P ["out"])
    = Some (P ["out"; ".pdf_RECOVERED.txt"]) /\
  file_bytes (fs colliding_once) (P ["out"; ".pdf_RECOVERED.txt"])
    = Some (nl ++ str "--- PAGE 1 ---" ++ nl ++ str "first" ++ nl) /\
  file_bytes (fs colliding_twice) (P ["out"; ".pdf_RECOVERED.txt"])
    = Some (nl ++ str "--- PAGE 1 ---" ++ nl ++ str "second" ++ nl) /\
  fs colliding_twice <> fs colliding_once.
Proof.
  split_and!; try (vm_compute; reflexivity).
  intros H.
  apply (f_equal (fun m => file_bytes m (P ["out"; ".pdf_RECOVERED.txt"]))) in H.
  vm_compute in H. discriminate.
Qed.

(** ** The scenario of the specification, run *)

Example stem_of_hidden_pdf :
  stem (P ["in"; ".pdf"]) = str ".pdf" /\ suffix (P ["in"; ".pdf"]) = [] /\
  stem (P ["in"; "a.b.pdf"]) = str "a.b" /\ suffix (P ["in"; "a.b.PDF"]) = str ".PDF".
Proof. split_and!; reflexivity. Qed.

Example strip_keeps_inner_space :
  strip (str "  top secret" ++ nl) = str "top secret".
Proof. reflexivity. Qed.

Example find_pdfs_single_file_any_case :
  find_pdfs (fs (disk [([], Dir); (P ["X.PDF"], File (Pdf a_pdf))])) (P ["X.PDF"])
    = [P ["X.PDF"]] /\
  find_pdfs (fs (disk [([], Dir); (P ["in"], Dir); (P ["in"; "X.PDF"], File (Pdf a_pdf))]))
            (P ["in"]) = [].
Proof. split; vm_compute; reflexivity. Qed.

Example scenario_run :
  let w' := snd (main in_order (P ["in"]) (P ["out"]) 2 scenario) in
  fs w' !! P ["out"; "a_RECOVERED.txt"] = Some (File (Raw (nl ++ expected_a))) /\
  fs w' !! P ["out"; "b_RECOVERED.txt"] = None /\
  stdout w' =
    str "[*] Found 2 PDFs" ++ nl ++ str "[*] Threads: 2" ++ nl
    ++ str "[*] Output root: /out" ++ nl ++ nl ++ str "=== SUMMARY ===" ++ nl
    ++ str "Processed: 2" ++ nl ++ str "Recovered: 1" ++ nl ++ str "Failed: 1" ++ nl
    ++ str "[FAIL] /in/b.pdf: No extractable text" ++ nl.
Proof. cbn zeta. split_and!; vm_compute; reflexivity. Qed.

(** * Further properties of the script *)

(** ** Names *)



Lemma rfind_dot_None s : Forall (fun c => c <> 46) s -> rfind_dot s = None.
Proof.
  induction 1 as [|c s Hc _ IH]; [done |]. cbn [rfind_dot]. rewrite IH.
  by destruct (N.eqb_spec c 46).
Qed.

Lemma rfind_dot_app s t :
  Forall (fun c => c <> 46) t -> rfind_dot (s ++ 46 :: t) = Some (length s).
Proof.
  intros Ht. induction s as [|c s IH]; cbn [rfind_dot app length].
  - by rewrite (rfind_dot_None t Ht).
  - by rewrite IH.
Qed.

Lemma rfind_dot_Some s k :
  rfind_dot s = Some k ->
  exists a t, s = a ++ 46 :: t /\ length a = k /\ Forall (fun c => c <> 46) t.
Proof.
  revert k. induction s as [|c s IH]; intros k; cbn [rfind_dot]; [done |].
  destruct (rfind_dot s) as [i|] eqn:Hs.
  - intros [= <-]. destruct (IH i eq_refl) as (a & t & -> & <- & Ht).
    by exists (c :: a), t.
  - destruct (N.eqb_spec c 46) as [->|_]; [|done]. intros [= <-].
    exists [], s. split_and!; try done.
    clear IH. induction s as [|d s IH]; [constructor |].
    cbn [rfind_dot] in Hs. destruct (rfind_dot s); [done |].
    destruct (N.eqb_spec d 46); [done |]. constructor; [done | by apply IH].
Qed.

(** [stem] and [suffix] cut the name in two. *)
Lemma stem_suffix nm : stem_of_name nm ++ suffix_of_name nm = nm.
Proof.
  unfold stem_of_name, suffix_of_name.
  destruct (rfind_dot nm) as [[|i]|]; try apply app_nil_r.
  destruct (decide (S (S i) < length nm)%nat); [apply take_drop | apply app_nil_r].
Qed.

(** A suffix starts with a dot, has no other, and follows a non-empty stem. *)
Lemma suffix_shape nm c e :
  suffix_of_name nm = c :: e ->
  c = 46 /\ Forall (fun d => d <> 46) e /\ stem_of_name nm <> [] /\
  nm = stem_of_name nm ++ c :: e.
Proof.
  intros Hs. pose proof (stem_suffix nm) as Hcut. rewrite Hs in Hcut.
  unfold stem_of_name, suffix_of_name in *.
  destruct (rfind_dot nm) as [[|i]|] eqn:Hr; try done.
  destruct (decide (S (S i) < length nm)%nat) as [Hlt|]; [|done].
  apply rfind_dot_Some in Hr as (a & t & -> & Ha & Ht).
  rewrite <- Ha in Hs. rewrite drop_app_length in Hs. injection Hs as <- <-.
  rewrite <- Ha. rewrite take_app_length. split_and!; try done.
  by destruct a.
Qed.

Lemma out_name_differs (p : path) : out_name p <> name p.
Proof.
  unfold out_name, stem. intros H.
  pose proof (stem_suffix (name p)) as Hcut. rewrite <- Hcut in H at 2.
  apply app_inv_head in H. symmetry in H.
  change (str "_RECOVERED.txt") with (95 :: str "RECOVERED.txt") in H.
  by apply suffix_shape in H as [? _].
Qed.

(** The output file of a task is never the PDF it reads. *)
Lemma out_file_differs pdf_path input_root output_root :
  out_file_of pdf_path input_root output_root <> Some pdf_path.
Proof.
  unfold out_file_of. destruct (strip_prefix input_root pdf_path) as [rel|]; [|done].
  cbn. intros [= H]. apply (out_name_differs pdf_path).
  unfold name. rewrite <- H at 2. by rewrite last_last.
Qed.

(** ** The skip condition, read on the document *)



(** ** Documents left open *)

Lemma process_pdf_open_docs pdf_path input_root output_root w pages w1 :
  extract_text_ignore_overlays pdf_path w = (inr pages, w1) ->
  open_docs (snd (process_pdf pdf_path input_root output_root w)) = open_docs w.
Proof.
  intros Hex. rewrite process_pdf_run, Hex.
  assert (w1 = w) as ->.
  { rewrite extract_run in Hex.
    destruct (fs w !! pdf_path) as [[|[doc|c]]|]; try done.
    destruct (forallb readable doc); [by injection Hex |done]. }
  destruct (any pages); [|done].
  destruct (strip_prefix input_root pdf_path) as [rel|]; [|done]. cbn zeta.
  destruct (mkdir (output_root ++ parent rel) w) as [[e|[]] w2] eqn:Hmk.
  { by apply mkdir_raise in Hmk as ->. }
  apply mkdir_ok in Hmk as (_ & Hg & _).
  set (f := (output_root ++ parent rel) ++ [out_name pdf_path]).
  destruct (open_w f w2) as [[e|[]] w3] eqn:Hop.
  { apply open_w_raise in Hop as ->. apply Hg. }
  apply open_w_ok in Hop as (_ & _ & ->).
  destruct (write_pages_run f pages 1
              (set_fs (<[f := File (Raw [])]> (fs w2)) (EvCreate f) w2))
    as (w4 & Hrun & _ & _ & Hd & _).
  rewrite Hrun.
  assert (open_docs w4 = open_docs w) as <- by (rewrite Hd; apply Hg).
  by destruct (snd (written pages 1)).
Qed.

(** X2: A task leaves a document open exactly when a page fails to load
    after [fitz.open] succeeded: then the PDF is open once more than
    before and the task reports the page's exception; in every other
    case, whether the task succeeds or fails, as many documents are open
    after it as before. *)
Theorem task_leaves_document_open
    (pdf_path input_root output_root : path) (w : world) :
  (forall doc,
     fs w !! pdf_path = Some (File (Pdf doc)) ->
     forallb readable doc = false ->
     open_docs (snd (process_pdf pdf_path input_root output_root w))
       = pdf_path :: open_docs w /\
     fst (process_pdf pdf_path input_root output_root w)
       = (pdf_path, false,
          Some (exn_text w (PageLoadError pdf_path (first_broken doc))))) /\
  ((forall doc, fs w !! pdf_path = Some (File (Pdf doc)) ->
                forallb readable doc = true) ->
   open_docs (snd (process_pdf pdf_path input_root output_root w)) = open_docs w).
Proof.
  split.
  - intros doc Hp Hr. by rewrite process_pdf_run, extract_run, Hp, Hr.
  - intros Hall.
    destruct (extract_text_ignore_overlays pdf_path w) as [[e|pages] w1] eqn:Hex.
    + rewrite process_pdf_run, Hex. cbn [snd]. rewrite extract_run in Hex.
      destruct (fs w !! pdf_path) as [[|[doc|c]]|] eqn:Hp;
        try (by injection Hex as _ <-).
      by rewrite (Hall doc eq_refl) in Hex.
    + by apply (process_pdf_open_docs _ _ _ _ pages w1).
Qed.

Lemma task_leaves_document_open_witness :
  open_docs (snd (process_pdf (P ["d.pdf"]) [] (P ["out"]) damaged)) = [P ["d.pdf"]] /\
  fst (process_pdf (P ["d.pdf"]) [] (P ["out"]) damaged)
    = (P ["d.pdf"], false, Some (str "document closed or encrypted")).
Proof.
  destruct (task_leaves_document_open (P ["d.pdf"]) [] (P ["out"]) damaged)
    as (Hleak & _).
  apply (Hleak [PageText (Some (str "page one")); PageBroken]); reflexivity.
Defined.

(** ** The PDF is only read *)

(** X3: Whatever happens, the task leaves the entry of its PDF as it was: the
    output file is never the PDF itself. *)
Theorem task_never_touches_its_pdf
    (pdf_path input_root output_root : path) (w : world) :
  out_file_of pdf_path input_root output_root <> Some pdf_path /\
  fs (snd (process_pdf pdf_path input_root output_root w)) !! pdf_path
    = fs w !! pdf_path.
Proof.
  split; [apply out_file_differs |].
  pose proof (process_pdf_effect pdf_path input_root output_root w) as (Hstep & _).
  cbn zeta in Hstep. step_at Hstep pdf_path.
  - done.
  - revert Hdir. rewrite process_pdf_run, extract_run, Hnone. cbn [snd]. congruence.
  - by apply out_file_differs in Hout.
Qed.

(** ** A task whose output directory is there *)

Lemma any_nonempty (pages : list pystr) : any pages = true -> pages <> [].
Proof. by intros H ->. Qed.

Lemma out_file_not_dir_path (out_dir : path) (nm : pystr) :
  out_dir <> out_dir ++ [nm].
Proof. apply snoc_neq. Qed.

(** With a readable PDF that has text, the output directory in place and
    no directory in the way of the output file, the task writes what
    [written] says and reports accordingly. *)
Lemma process_pdf_ready pdf_path input_root output_root w doc rel :
  fs w !! pdf_path = Some (File (Pdf doc)) ->
  forallb readable doc = true ->
  any (page_texts doc) = true ->
  strip_prefix input_root pdf_path = Some rel ->
  is_dir (fs w) (output_root ++ parent rel) = true ->
  fs w !! ((output_root ++ parent rel) ++ [out_name pdf_path]) <> Some Dir ->
  fst (process_pdf pdf_path input_root output_root w)
    = match snd (written (page_texts doc) 1) with
      | None => (pdf_path, true, None)
      | Some e => (pdf_path, false, Some (exn_text w e))
      end /\
  fs (snd (process_pdf pdf_path input_root output_root w))
    = <[(output_root ++ parent rel) ++ [out_name pdf_path]
        := File (Raw (fst (written (page_texts doc) 1)))]> (fs w).
Proof.
  intros Hp Hr Hany Hrel Hod Hnd.
  rewrite process_pdf_run, extract_run, Hp, Hr, Hany, Hrel. cbn zeta.
  rewrite (mkdir_dir _ _ Hod).
  set (f := (output_root ++ parent rel) ++ [out_name pdf_path]) in *.
  rewrite open_w_run; [|done|].
  2: { subst f. rewrite parent_snoc. unfold is_dir in Hod.
       by destruct (fs w !! (output_root ++ parent rel)) as [[|?]|]. }
  destruct (write_pages_run f (page_texts doc) 1
              (set_fs (<[f := File (Raw [])]> (fs w)) (EvCreate f) w))
    as (w4 & Hrun & Hfs & _ & _ & _ & Hx).
  rewrite Hrun. cbn [fs set_fs] in Hfs. rewrite content_at_insert in Hfs.
  apply any_nonempty in Hany.
  assert (fs w4 = <[f := File (Raw (fst (written (page_texts doc) 1)))]> (fs w)) as Hfs4.
  { rewrite Hfs. destruct (page_texts doc); [done |]. by rewrite insert_insert_eq. }
  destruct (snd (written (page_texts doc) 1)); cbn [fst snd]; by rewrite ?Hx.
Qed.

(** ** Running a task again *)

(** X4: Running a task a second time, on the world the first run left, gives
    the same result (the same success, or the same failure with the same
    message) and changes nothing in the file system. *)
Theorem task_rerun_same_result
    (pdf_path input_root output_root : path) (w : world) :
  let w' := snd (process_pdf pdf_path input_root output_root w) in
  fst (process_pdf pdf_path input_root output_root w')
    = fst (process_pdf pdf_path input_root output_root w) /\
  fs (snd (process_pdf pdf_path input_root output_root w')) = fs w'.
Proof.
  cbn zeta.
  rewrite (process_pdf_run pdf_path input_root output_root w), extract_run.
  destruct (fs w !! pdf_path) as [[|[doc|c]]|] eqn:Hp; cbn [fst snd];
    try (by rewrite process_pdf_run, extract_run, Hp).
  destruct (forallb readable doc) eqn:Hr; cbn [fst snd].
  2: { rewrite process_pdf_run, extract_run. cbn [fs set_open_docs].
       by rewrite Hp, Hr. }
  destruct (any (page_texts doc)) eqn:Hany; cbn [fst snd].
  2: { by rewrite process_pdf_run, extract_run, Hp, Hr, Hany. }
  destruct (strip_prefix input_root pdf_path) as [rel|] eqn:Hrel; cbn [fst snd].
  2: { by rewrite process_pdf_run, extract_run, Hp, Hr, Hany, Hrel. }
  cbn zeta.
  set (out_dir := output_root ++ parent rel).
  set (f := out_dir ++ [out_name pdf_path]).
  assert (pdf_path <> f) as Hpf.
  { intros Heq. apply (out_file_differs pdf_path input_root output_root).
    unfold out_file_of. rewrite Hrel. cbn. f_equal. by rewrite Heq at 2. }
  destruct (mkdir out_dir w) as [[e|[]] w2] eqn:Hmk.
  { apply mkdir_raise in Hmk as Hw. subst w2. cbn [fst snd].
    rewrite process_pdf_run, extract_run, Hp, Hr, Hany, Hrel. cbn zeta.
    fold out_dir. by rewrite Hmk. }
  apply mkdir_ok in Hmk as (Hod & Hg & _ & _).
  pose proof (grows_old _ _ Hg _ _ Hp) as Hp2.
  destruct (open_w f w2) as [[e|[]] w3] eqn:Hop.
  { apply open_w_raise in Hop as Hw. subst w3. cbn [fst snd].
    rewrite process_pdf_run, extract_run, Hp2, Hr, Hany, Hrel. cbn zeta.
    fold out_dir. rewrite (mkdir_dir _ _ Hod). fold f. by rewrite Hop. }
  apply open_w_ok in Hop as (Hnd & Hpar & ->).
  destruct (write_pages_run f (page_texts doc) 1
              (set_fs (<[f := File (Raw [])]> (fs w2)) (EvCreate f) w2))
    as (w4 & Hrun & Hfs & _ & _ & _ & Hx).
  rewrite Hrun. cbn [fs set_fs] in Hfs. rewrite content_at_insert in Hfs.
  cbn [exn_text set_fs] in Hx.
  assert (fs w4 = <[f := File (Raw (fst (written (page_texts doc) 1)))]> (fs w2)) as Hfs4.
  { rewrite Hfs. pose proof (any_nonempty _ Hany).
    destruct (page_texts doc); [done |]. by rewrite insert_insert_eq. }
  assert (fst (process_pdf pdf_path input_root output_root w4)
          = match snd (written (page_texts doc) 1) with
            | None => (pdf_path, true, None)
            | Some e => (pdf_path, false, Some (exn_text w4 e))
            end /\
          fs (snd (process_pdf pdf_path input_root output_root w4)) = fs w4)
    as [Hres Hsame].
  { destruct (process_pdf_ready pdf_path input_root output_root w4 doc rel)
      as [H1 H2]; try done.
    - rewrite Hfs4, lookup_insert_ne by done. done.
    - fold out_dir. unfold is_dir. rewrite Hfs4, lookup_insert_ne.
      + apply Hod.
      + intros Heq. by apply (out_file_not_dir_path out_dir (out_name pdf_path)).
    - fold out_dir. fold f. by rewrite Hfs4, lookup_insert_eq.
    - split; [done |]. rewrite H2. fold out_dir. fold f.
      by rewrite Hfs4, insert_insert_eq. }
  destruct (snd (written (page_texts doc) 1)); cbn [fst snd]; by rewrite Hres.
Qed.

(** ** A page that cannot be encoded *)





(** ** The page headers, in order *)

Lemma header_lines_app_nl a b :
  header_lines (a ++ nl ++ b) = header_lines a ++ header_lines b.
Proof. unfold header_lines. by rewrite lines_app_nl, filter_app. Qed.

Lemma header_lines_header_line i : header_lines (header_line i) = [header_line i].
Proof.
  unfold header_lines, lines.
  rewrite lines_go_no_nl by apply header_line_no_nl. cbn [app].
  rewrite filter_cons_True by apply header_line_is_header. done.
Qed.

Lemma header_lines_render i pages :
  Forall (fun text => header_lines text = []) pages ->
  header_lines (render_from i pages)
  = map (fun k => header_line (i + N.of_nat k)) (seq 0 (length pages)).
Proof.
  intros Hall. revert i.
  induction Hall as [|text pages Ht _ IH]; intros i; [done |].
  cbn [render_from]. rewrite page_header_split.
  replace ((nl ++ header_line i ++ nl) ++ (text ++ nl) ++ render_from (N.succ i) pages)
    with ([] ++ nl ++ (header_line i ++ nl ++ (text ++ nl ++ render_from (N.succ i) pages)))
    by (by rewrite <- !app_assoc).
  rewrite !header_lines_app_nl, IH, header_lines_header_line, Ht.
  change (header_lines []) with (@nil pystr).
  cbn [length seq map app]. rewrite N.add_0_r. f_equal.
  rewrite <- seq_shift, map_map. apply map_ext. intros k. f_equal. lia.
Qed.

(** X6: When no page text has a line that looks like a page header, the
    header lines of the rendered output are exactly the lines
    [--- PAGE 1 ---], [--- PAGE 2 ---], ... up to the number of pages, in
    this order: pages are numbered from 1 without gaps, and the decimal
    number of the k-th header reads back as k. *)
Theorem headers_numbered_from_one (pages : list pystr) :
  Forall (fun text => header_lines text = []) pages ->
  header_lines (render_pages pages)
    = map (fun k => header_line (N.of_nat (S k))) (seq 0 (length pages)) /\
  forall k, (k < length pages)%nat ->
    exists ds, header_lines (render_pages pages) !! k
                 = Some (str "--- PAGE " ++ ds ++ str " ---") /\
               digits_value ds = N.of_nat (S k).
Proof.
  intros Hall.
  assert (header_lines (render_pages pages)
          = map (fun k => header_line (N.of_nat (S k))) (seq 0 (length pages))) as Heq.
  { unfold render_pages. rewrite (header_lines_render 1 pages Hall).
    apply map_ext. intros k. f_equal. lia. }
  split; [done |]. intros k Hk. exists (str_int (N.of_nat (S k))). split.
  - rewrite Heq, list_lookup_fmap, lookup_seq_lt by done. done.
  - apply str_int_value.
Qed.

Lemma headers_numbered_from_one_witness :
  header_lines (render_pages [str "Hello"; str "World"])
    = [str "--- PAGE 1 ---"; str "--- PAGE 2 ---"].
Proof.
  apply (headers_numbered_from_one [str "Hello"; str "World"]).
  repeat constructor.
Defined.

(** ** The result of a task *)

(** X7: The result names the task's PDF, and it is either a success without
    a message or a failure with one: the summary never has to print a
    missing message. *)
Theorem task_result_shape (pdf_path input_root output_root : path) (w : world) :
  fst (process_pdf pdf_path input_root output_root w) = (pdf_path, true, None) \/
  exists msg,
    fst (process_pdf pdf_path input_root output_root w) = (pdf_path, false, Some msg).
Proof.
  rewrite process_pdf_run.
  destruct (extract_text_ignore_overlays pdf_path w) as [[e|pages] w1];
    [right; by eauto |].
  destruct (any pages); [|right; by eauto].
  destruct (strip_prefix input_root pdf_path) as [rel|]; [|right; by eauto].
  cbn zeta.
  destruct (mkdir _ w1) as [[e|[]] w2]; [right; by eauto |].
  destruct (open_w _ w2) as [[e|[]] w3]; [right; by eauto |].
  destruct (write_pages _ pages 1 w3) as [[e|[]] w4]; [right; by eauto |].
  by left.
Qed.

(** ** The summary *)





(** ** The locator *)

Lemma lower_char_dot c : lower_char c = 46 -> c = 46.
Proof.
  unfold lower_char.
  destruct (65 <=? c) eqn:H1; destruct (c <=? 90) eqn:H2; cbn [andb]; try done.
  apply N.leb_le in H1. lia.
Qed.

Lemma lower_char_not_dot c v : lower_char c = v -> v <> 46 -> c <> 46.
Proof. intros <- Hv ->. by apply Hv. Qed.

Lemma lower_pdf e :
  lower e = str ".pdf" ->
  exists c1 c2 c3, e = [46; c1; c2; c3] /\ Forall (fun c => c <> 46) [c1; c2; c3] /\
                   c3 <> 116.
Proof.
  change (str ".pdf") with [46; 112; 100; 102].
  destruct e as [|c0 [|c1 [|c2 [|c3 [|? ?]]]]]; try done.
  intros [= H0 H1 H2 H3]. apply lower_char_dot in H0 as ->.
  exists c1, c2, c3. split_and!; [done | |].
  - repeat constructor; eapply lower_char_not_dot; by eauto.
  - intros ->. by vm_compute in H3.
Qed.

Lemma suffix_of_name_app s e :
  s <> [] -> lower e = str ".pdf" -> suffix_of_name (s ++ e) = e.
Proof.
  intros Hs (c1 & c2 & c3 & -> & Hnd & _)%lower_pdf.
  unfold suffix_of_name. rewrite rfind_dot_app by done.
  destruct s as [|a s]; [done |]. cbn [length].
  rewrite decide_True by (rewrite length_app; cbn [length]; lia).
  change (S (length s)) with (length (a :: s)). by rewrite drop_app_length.
Qed.

(** X9: In single-file mode, a regular file is accepted exactly when its
    name is a non-empty stem followed by [.pdf] in any mix of upper and
    lower case; in particular every regular file that the directory scan
    accepts by its name is also accepted when given directly, except one
    named just [.pdf]. *)
Theorem single_file_accepted (m : gmap path node) (p : path) :
  is_file m p = true ->
  (find_pdfs m p = [p] <->
   exists s e, s <> [] /\ name p = s ++ e /\ lower e = str ".pdf") /\
  (forall s, s <> [] -> name p = s ++ str ".pdf" -> find_pdfs m p = [p]).
Proof.
  intros Hf.
  assert ((exists s e, s <> [] /\ name p = s ++ e /\ lower e = str ".pdf") ->
          find_pdfs m p = [p]) as Hacc.
  { intros (s & e & Hs & Hn & He). unfold find_pdfs, suffix.
    rewrite Hf, Hn, (suffix_of_name_app _ _ Hs He).
    by rewrite bool_decide_true. }
  split; [split; [|done] |].
  - unfold find_pdfs. rewrite Hf. cbn [andb]. case_bool_decide as Hsuf.
    + intros _. unfold suffix in Hsuf.
      destruct (suffix_of_name (name p)) as [|c e] eqn:Hsn; [done |].
      apply suffix_shape in Hsn as (_ & _ & Hstem & Hn).
      exists (stem_of_name (name p)), (c :: e). by split_and!.
    + unfold rglob, is_dir. unfold is_file in Hf.
      by destruct (m !! p) as [[|?]|].
  - intros s Hs Hn. apply Hacc. by exists s, (str ".pdf").
Qed.

Lemma single_file_accepted_witness :
  find_pdfs (fs scenario) (P ["in"; "a.pdf"]) = [P ["in"; "a.pdf"]].
Proof.
  destruct (single_file_accepted (fs scenario) (P ["in"; "a.pdf"])) as [_ H];
    [vm_compute; reflexivity |].
  apply (H (str "a")); [discriminate | vm_compute; reflexivity].
Defined.

Lemma located_under_root m input_root q :
  q ∈ find_pdfs m input_root ->
  is_Some (m !! q) /\ exists rel, q = input_root ++ rel.
Proof.
  intros Hq. unfold find_pdfs in Hq. destruct (is_file m input_root && _) eqn:Hc.
  - apply list_elem_of_singleton in Hq as ->.
    apply andb_true_iff in Hc as [Hf _]. unfold is_file in Hf. split.
    + by destruct (m !! input_root).
    + exists []. by rewrite app_nil_r.
  - apply elem_of_rglob in Hq as (_ & Hs & (rel & _ & ->) & _). by eauto.
Qed.

(** X10: Every located path exists, lies at or beneath the input root, so
    that [relative_to] never raises for it, and has an output file at or
    beneath the output root. *)
Theorem located_pdf_has_output
    (m : gmap path node) (input_root output_root q : path) (w : world) :
  q ∈ find_pdfs m input_root ->
  is_Some (m !! q) /\
  exists rel,
    q = input_root ++ rel /\
    relative_to q input_root w = (inr rel, w) /\
    out_file_of q input_root output_root
      = Some ((output_root ++ parent rel) ++ [out_name q]) /\
    output_root `prefix_of` (output_root ++ parent rel) ++ [out_name q].
Proof.
  intros Hq. destruct (located_under_root m input_root q Hq) as [Hsome [rel Hrel]].
  split; [done |]. exists rel.
  pose proof (proj2 (strip_prefix_spec input_root q rel) Hrel) as Hsp.
  split_and!; [done | | |].
  - unfold relative_to. by rewrite Hsp.
  - unfold out_file_of. by rewrite Hsp.
  - rewrite <- app_assoc. by apply prefix_app_r.
Qed.

Lemma located_pdf_has_output_witness :
  out_file_of (P ["in"; "sub"; "a.pdf"]) (P ["in"]) (P ["out"])
  = Some (P ["out"; "sub"; "a_RECOVERED.txt"]).
Proof.
  destruct (located_pdf_has_output (fs blocked) (P ["in"]) (P ["out"])
              (P ["in"; "sub"; "a.pdf"]) blocked) as (_ & rel & Hrel & _ & Hout & _).
  - apply list_elem_of_In. vm_compute. auto.
  - rewrite Hout. apply (app_inv_head (P ["in"])) in Hrel. by subst rel.
Defined.

(** A located path is not named like an output file. *)
Lemma located_name m input_root q s :
  q ∈ find_pdfs m input_root -> name q <> s ++ str "_RECOVERED.txt".
Proof.
  intros Hq Hn.
  assert (exists t c, name q = t ++ [c] /\ c <> 116) as (t & c & Hn' & Hc).
  { unfold find_pdfs in Hq. destruct (is_file m input_root && _) eqn:Hcond.
    - apply list_elem_of_singleton in Hq as ->.
      apply andb_true_iff in Hcond as [_ Hsuf]. apply bool_decide_eq_true in Hsuf.
      pose proof (stem_suffix (name input_root)) as Hcut.
      unfold suffix in Hsuf.
      apply lower_pdf in Hsuf as (c1 & c2 & c3 & He & _ & Hc3).
      rewrite He in Hcut. exists (stem_of_name (name input_root) ++ [46; c1; c2]), c3.
      split; [|done]. by rewrite <- app_assoc.
    - apply elem_of_rglob in Hq as (_ & _ & _ & (t & Ht)).
      exists (t ++ [46; 112; 100]), 102. split; [|done].
      by rewrite <- app_assoc. }
  rewrite Hn in Hn'.
  change (str "_RECOVERED.txt") with (str "_RECOVERED.tx" ++ [116]) in Hn'.
  rewrite app_assoc in Hn'. by apply app_inj_tail in Hn' as [_ <-].
Qed.

(** ** Output files of different PDFs *)

Lemma stem_of_name_app s e :
  s <> [] -> lower e = str ".pdf" -> stem_of_name (s ++ e) = s.
Proof.
  intros Hs He. pose proof (stem_suffix (s ++ e)) as Hcut.
  rewrite (suffix_of_name_app _ _ Hs He) in Hcut. by apply app_inv_tail in Hcut.
Qed.

Lemma path_split_last (rel : path) : rel <> [] -> rel = parent rel ++ [name rel].
Proof. intros H. by apply app_removelast_last. Qed.

Lemma scanned_out_file m input_root output_root q :
  q ∈ rglob m input_root (str ".pdf") -> name q <> str ".pdf" ->
  exists dir s,
    q = (input_root ++ dir) ++ [s ++ str ".pdf"] /\
    out_file_of q input_root output_root
      = Some ((output_root ++ dir) ++ [s ++ str "_RECOVERED.txt"]).
Proof.
  intros (_ & _ & (rel & Hne & ->) & (s & Hs))%elem_of_rglob Hn.
  rewrite (path_split_last rel Hne), app_assoc in Hs, Hn |- *.
  rewrite name_snoc in Hs, Hn.
  assert (s <> []) as Hs0 by (intros ->; by rewrite Hs in Hn).
  exists (parent rel), s. rewrite Hs. split; [done |].
  unfold out_file_of.
  rewrite (proj2 (strip_prefix_spec input_root _ (parent rel ++ [s ++ str ".pdf"])))
    by (by rewrite app_assoc).
  cbn. unfold out_name, stem. rewrite parent_snoc, name_snoc.
  by rewrite stem_of_name_app.
Qed.

(** X11: Two different PDFs of one run never share an output file, unless one
    of them is named just [.pdf]: the output file tells which PDF it
    comes from. *)
Theorem located_pdfs_distinct_outputs
    (m : gmap path node) (input_root output_root q1 q2 : path) :
  q1 ∈ find_pdfs m input_root ->
  q2 ∈ find_pdfs m input_root ->
  name q1 <> str ".pdf" ->
  name q2 <> str ".pdf" ->
  q1 <> q2 ->
  out_file_of q1 input_root output_root <> out_file_of q2 input_root output_root.
Proof.
  unfold find_pdfs. destruct (is_file m input_root && _).
  { intros H1%list_elem_of_singleton H2%list_elem_of_singleton. congruence. }
  intros H1 H2 Hn1 Hn2 Hne.
  destruct (scanned_out_file m input_root output_root q1 H1 Hn1)
    as (d1 & s1 & -> & ->).
  destruct (scanned_out_file m input_root output_root q2 H2 Hn2)
    as (d2 & s2 & -> & ->).
  intros [= [Hd Hs]%app_inj_tail]. apply Hne.
  apply app_inv_head in Hd as ->. by apply app_inv_tail in Hs as ->.
Qed.

Lemma located_pdfs_distinct_outputs_witness :
  out_file_of (P ["in"; "a.pdf"]) (P ["in"]) (P ["out"])
    <> out_file_of (P ["in"; "b.pdf"]) (P ["in"]) (P ["out"]).
Proof.
  apply (located_pdfs_distinct_outputs (fs scenario) (P ["in"]) (P ["out"])
           (P ["in"; "a.pdf"]) (P ["in"; "b.pdf"])).
  - apply list_elem_of_In. vm_compute. auto.
  - apply list_elem_of_In. vm_compute. auto.
  - vm_compute. discriminate.
  - vm_compute. discriminate.
  - vm_compute. discriminate.
Defined.

(** ** What a whole run may change *)

Lemma tool_step_refl output_root m : tool_step output_root m m.
Proof. intros x. by left. Qed.

Lemma tool_step_trans output_root m1 m2 m3 :
  tool_step output_root m1 m2 -> tool_step output_root m2 m3 ->
  tool_step output_root m1 m3.
Proof.
  intros H12 H23 x.
  destruct (H12 x) as [E12|[(N1 & D2 & Hp)|(ND1 & Hp & Hn & c & F2)]];
    destruct (H23 x) as [E23|[(N2 & D3 & Hp')|(ND2 & Hp' & Hn' & c' & F3)]].
  - left. congruence.
  - right. left. split_and!; try done. congruence.
  - right. right. split_and!; try done; [congruence | by eauto].
  - right. left. split_and!; try done. congruence.
  - congruence.
  - congruence.
  - right. right. split_and!; try done. exists c. congruence.
  - congruence.
  - right. right. split_and!; try done. by eauto.
Qed.

Lemma mkdir_tool_step output_root p w w' r :
  output_root `prefix_of` p -> mkdir p w = (r, w') ->
  tool_step output_root (fs w) (fs w').
Proof.
  intros Hpre Hmk. destruct r as [e|[]].
  { apply mkdir_raise in Hmk as ->. apply tool_step_refl. }
  apply mkdir_ok in Hmk as (_ & Hg & Hnew & _). intros x.
  destruct (fs w !! x) as [v|] eqn:Hx.
  { left. by apply (grows_old _ _ Hg). }
  destruct (fs w' !! x) as [v|] eqn:Hx'; [|by left].
  right. left. split; [done |].
  assert (is_Some (fs w' !! x)) as Hs by (by rewrite Hx').
  split.
  - rewrite <- Hx'. by apply (grows_new _ _ Hg).
  - apply (prefix_weak_total _ _ p); [by apply Hnew | done].
Qed.

Lemma process_pdf_tool_step pdf_path input_root output_root w :
  tool_step output_root (fs w)
    (fs (snd (process_pdf pdf_path input_root output_root w))).
Proof.
  rewrite process_pdf_run, extract_run.
  destruct (fs w !! pdf_path) as [[|[doc|c]]|]; try apply tool_step_refl.
  destruct (forallb readable doc); [|apply tool_step_refl].
  destruct (any (page_texts doc)) eqn:Hany; [|apply tool_step_refl].
  destruct (strip_prefix input_root pdf_path) as [rel|]; [|apply tool_step_refl].
  cbn zeta.
  set (out_dir := output_root ++ parent rel).
  set (f := out_dir ++ [out_name pdf_path]).
  assert (output_root `prefix_of` out_dir) as Hpre by (by apply prefix_app_r).
  destruct (mkdir out_dir w) as [[e|[]] w2] eqn:Hmk;
    [by apply (mkdir_tool_step _ _ _ _ _ Hpre Hmk) |].
  apply (mkdir_tool_step _ _ _ _ _ Hpre) in Hmk.
  destruct (open_w f w2) as [[e|[]] w3] eqn:Hop.
  { by apply open_w_raise in Hop as ->. }
  apply open_w_ok in Hop as (Hnd & _ & ->).
  destruct (write_pages_run f (page_texts doc) 1
              (set_fs (<[f := File (Raw [])]> (fs w2)) (EvCreate f) w2))
    as (w4 & Hrun & Hfs & _).
  rewrite Hrun. cbn [fs set_fs] in Hfs. rewrite content_at_insert in Hfs.
  assert (tool_step output_root (fs w) (fs w4)) as Hstep.
  { apply (tool_step_trans _ _ (fs w2)); [done |]. rewrite Hfs.
    pose proof (any_nonempty _ Hany).
    destruct (page_texts doc) as [|t ts]; [done |]. rewrite insert_insert_eq.
    intros x. destruct (decide (x = f)) as [->|Hxf].
    - right. right. split_and!; [done | | |].
      + subst f. by apply prefix_app_r.
      + exists (stem pdf_path). subst f. by rewrite name_snoc.
      + rewrite lookup_insert_eq. by eauto.
    - left. by rewrite lookup_insert_ne. }
  by destruct (snd (written (page_texts doc) 1)).
Qed.

Lemma run_tasks_tool_step input_root output_root order w :
  tool_step output_root (fs w)
    (fs (snd (run_tasks input_root output_root order w))).
Proof.
  revert w. induction order as [|pdf order IH]; intros w; [apply tool_step_refl |].
  cbn [run_tasks].
  pose proof (process_pdf_tool_step pdf input_root output_root w) as H1.
  destruct (process_pdf pdf input_root output_root w) as [r w1].
  specialize (IH w1).
  destruct (run_tasks input_root output_root order w1) as [rs w2].
  cbn [fst snd] in *. by apply (tool_step_trans _ _ (fs w1)).
Qed.

Lemma main_tool_step sch input_root output_root threads w :
  tool_step output_root (fs w)
    (fs (snd (main sch input_root output_root threads w))).
Proof.
  destruct (main_fs input_root output_root sch threads w) as (v & Hv & ->).
  apply (tool_step_trans _ _ (fs v)); [|apply run_tasks_tool_step].
  rewrite Hv. destruct (mkdir output_root w) as [r w0] eqn:Hmk.
  by apply (mkdir_tool_step _ _ _ _ _ (reflexivity output_root) Hmk).
Qed.

(** X12: A whole run changes the file system only in these ways: directories
    appear on the way to the output root or beneath it, and text files
    named [..._RECOVERED.txt] beneath the output root are created or
    overwritten.  So nothing is ever removed, and an entry that is there
    before the run and is not beneath the output root is the same after
    it. *)
Theorem main_changes_only_output
    (sch : scheduler) (input_root output_root : path) (threads : Z) (w : world) :
  let m' := fs (snd (main sch input_root output_root threads w)) in
  tool_step output_root (fs w) m' /\
  (forall x, is_Some (fs w !! x) -> is_Some (m' !! x)) /\
  (forall x, is_Some (fs w !! x) -> ~ output_root `prefix_of` x ->
             m' !! x = fs w !! x).
Proof.
  cbn zeta. pose proof (main_tool_step sch input_root output_root threads w) as Hstep.
  split_and!; [done | |].
  - intros x Hx. destruct (Hstep x) as [E|[(N & _)|(_ & _ & _ & c & F)]].
    + by rewrite E.
    + rewrite N in Hx. by destruct Hx.
    + by rewrite F.
  - intros x Hx Hout. destruct (Hstep x) as [E|[(N & _)|(_ & Hp & _)]]; [done | |done].
    rewrite N in Hx. by destruct Hx.
Qed.

Lemma main_changes_only_output_witness :
  fs (snd (main in_order (P ["in"]) (P ["out"]) 2 scenario)) !! P ["in"; "b.pdf"]
  = Some (File (Pdf b_pdf)).
Proof.
  destruct (main_changes_only_output in_order (P ["in"]) (P ["out"]) 2 scenario)
    as (_ & _ & Hsame).
  rewrite Hsame.
  - vm_compute. reflexivity.
  - exists (File (Pdf b_pdf)). vm_compute. reflexivity.
  - intros [k Hk]. vm_compute in Hk. discriminate.
Defined.

(** X13: A run leaves every PDF it can locate as it was, wherever the output
    root lies, be it the input root itself. *)
Theorem main_keeps_located_pdfs
    (sch : scheduler) (input_root output_root : path) (threads : Z) (w : world)
    (q : path) :
  q ∈ find_pdfs (fs w) input_root ->
  fs (snd (main sch input_root output_root threads w)) !! q = fs w !! q.
Proof.
  intros Hq.
  destruct (main_tool_step sch input_root output_root threads w q)
    as [E|[(N & _)|(_ & _ & (s & Hn) & _)]]; [done | |].
  - destruct (located_under_root (fs w) input_root q Hq) as [Hs _].
    rewrite N in Hs. by destruct Hs.
  - by apply (located_name _ _ _ s) in Hq.
Qed.

Lemma main_keeps_located_pdfs_witness :
  fs (snd (main in_order (P ["in"]) (P ["in"]) 2 scenario)) !! P ["in"; "a.pdf"]
  = Some (File (Pdf a_pdf)).
Proof.
  rewrite (main_keeps_located_pdfs in_order (P ["in"]) (P ["in"]) 2 scenario
             (P ["in"; "a.pdf"])).
  - vm_compute. reflexivity.
  - apply list_elem_of_In. vm_compute. auto.
Defined.

(** ** How a run ends *)

Lemma main_mkdir_raise sch input_root output_root threads w e w' :
  mkdir output_root w = (inl e, w') ->
  main sch input_root output_root threads w = (inl e, w).
Proof.
  intros Hmk. unfold main. rewrite bind_run, Hmk.
  by apply mkdir_raise in Hmk as ->.
Qed.





(** X15: In a well-formed file system, when a regular file is the output root
    or lies on the way to it, the run stops at once with the exception of
    [mkdir]: nothing is printed and the world is left exactly as it
    was. *)
Theorem main_output_root_blocked
    (sch : scheduler) (input_root output_root : path) (threads : Z) (w : world) :
  wf_fs (fs w) ->
  blocked_by_file (fs w) output_root ->
  exists e,
    main sch input_root output_root threads w = (inl e, w) /\
    exit_status (fst (main sch input_root output_root threads w)) = 1%Z.
Proof.
  intros Hwf (x & d & Hpre & Hx).
  destruct (mkdir_blocked output_root w x d Hwf Hpre Hx) as [e Hmk].
  exists e. by rewrite (main_mkdir_raise sch input_root _ threads _ _ _ Hmk).
Qed.

Lemma main_output_root_blocked_witness :
  exists e,
    main in_order (P ["in"]) (P ["out"]) 2 output_is_file = (inl e, output_is_file) /\
    exit_status (fst (main in_order (P ["in"]) (P ["out"]) 2 output_is_file)) = 1%Z.
Proof.
  apply (main_output_root_blocked in_order (P ["in"]) (P ["out"]) 2 output_is_file).
  - apply wf_fs_check_sound. vm_compute. reflexivity.
  - exists (P ["out"]), (Raw (str "notes")). split; [done |].
    vm_compute. reflexivity.
Defined.



(** ** The default number of threads *)



(** ** The recovered files at the end of a run *)

Lemma run_tasks_keeps input_root output_root order w f :
  is_Some (fs w !! f) ->
  (forall q', q' ∈ order -> out_file_of q' input_root output_root <> Some f) ->
  fs (snd (run_tasks input_root output_root order w)) !! f = fs w !! f.
Proof.
  revert w. induction order as [|p order IH]; intros w Hf Hout; [done |].
  cbn [run_tasks].
  pose proof (process_pdf_effect p input_root output_root w) as (Hstep & _).
  cbn zeta in Hstep.
  destruct (process_pdf p input_root output_root w) as [r w1].
  specialize (IH w1).
  destruct (run_tasks input_root output_root order w1) as [rs w2].
  cbn [fst snd] in *.
  assert (fs w1 !! f = fs w !! f) as Hsame.
  { step_at Hstep f; [done | |].
    - rewrite Hnone in Hf. by destruct Hf.
    - destruct (Hout p); [left | done]. }
  rewrite <- Hsame. apply IH.
  - by rewrite Hsame.
  - intros q' Hq'. apply Hout. by right.
Qed.

Lemma run_tasks_recovers input_root output_root order w q :
  NoDup order ->
  (forall q', q' ∈ order -> q' <> q ->
     out_file_of q' input_root output_root <> out_file_of q input_root output_root) ->
  (q, true, None) ∈ fst (run_tasks input_root output_root order w) ->
  exists doc rel,
    fs w !! q = Some (File (Pdf doc)) /\
    strip_prefix input_root q = Some rel /\
    fs (snd (run_tasks input_root output_root order w))
       !! ((output_root ++ parent rel) ++ [out_name q])
    = Some (File (Raw (render_pages (page_texts doc)))).
Proof.
  revert w. induction order as [|p order IH]; intros w Hnd Hout Hin.
  { by apply elem_of_nil in Hin. }
  apply NoDup_cons in Hnd as [Hp Hnd]. cbn [run_tasks] in *.
  pose proof (process_pdf_path p input_root output_root w) as Hpath.
  pose proof (process_pdf_effect p input_root output_root w) as (Hstep & _).
  pose proof (fun w' => process_pdf_success p input_root output_root w w') as Hsucc.
  cbn zeta in Hstep.
  destruct (process_pdf p input_root output_root w) as [r w1].
  pose proof (run_tasks_paths input_root output_root order w1) as Hpaths.
  pose proof (run_tasks_keeps input_root output_root order w1) as Hkeep.
  specialize (IH w1 Hnd).
  destruct (run_tasks input_root output_root order w1) as [rs w2].
  cbn [fst snd] in *.
  apply elem_of_cons in Hin as [Hr|Hin].
  - subst r. cbn in Hpath. subst p.
    destruct (Hsucc w1 eq_refl eq_refl)
      as (doc & rel & v & Hq & _ & _ & _ & Hrel & _ & _ & Hfs & _).
    exists doc, rel. split_and!; [done | done |].
    set (f := (output_root ++ parent rel) ++ [out_name q]) in *.
    rewrite Hkeep.
    + rewrite Hfs. apply lookup_insert_eq.
    + rewrite Hfs, lookup_insert_eq. by eauto.
    + intros q' Hq'. assert (q' <> q) as Hne by (by intros ->).
      intros Heq. apply (Hout q'); [by right | done |].
      rewrite Heq. unfold out_file_of. by rewrite Hrel.
  - assert (q ∈ order) as Hq.
    { rewrite <- Hpaths. apply list_elem_of_fmap. by exists (q, true, None). }
    assert (p <> q) as Hne by (by intros ->).
    destruct IH as (doc & rel & Hdoc & Hrel & Hfinal); [|done |].
    { intros q' Hq'. apply Hout. by right. }
    exists doc, rel. split_and!; [|done|done].
    step_at Hstep q.
    + congruence.
    + congruence.
    + congruence.
Qed.

(** X18: After a whole run, for every PDF reported as recovered, the
    recovered file holds the rendering of the text that PDF had before
    the run, at the mirrored place under the output root, provided no
    other located PDF has the same output file: later tasks of the batch,
    in whatever order they complete, leave it alone. *)
Theorem main_recovered_files_hold_text
    (sch : scheduler) (input_root output_root : path) (threads : Z) (w w0 : world)
    (q : path) :
  mkdir output_root w = (inr tt, w0) ->
  (0 < threads)%Z ->
  (q, true, None)
    ∈ fst (run_tasks input_root output_root
             (completion_order sch (find_pdfs (fs w0) input_root))
             (set_stdout
                (stdout w0 ++ banner (find_pdfs (fs w0) input_root) output_root threads)
                w0)) ->
  (forall q', q' ∈ find_pdfs (fs w0) input_root -> q' <> q ->
     out_file_of q' input_root output_root <> out_file_of q input_root output_root) ->
  exists doc rel,
    fs w !! q = Some (File (Pdf doc)) /\
    q = input_root ++ rel /\
    fs (snd (main sch input_root output_root threads w))
       !! ((output_root ++ parent rel) ++ [out_name q])
    = Some (File (Raw (render_pages (page_texts doc)))).
Proof.
  intros Hmk Hthreads Hin Hout.
  assert (find_pdfs (fs w0) input_root <> []) as Hne.
  { intros Hnil. rewrite Hnil in Hin.
    assert (completion_order sch [] = []) as Hnone
      by (apply Permutation_nil_r, completion_perm).
    rewrite Hnone in Hin. by apply elem_of_nil in Hin. }
  rewrite (main_run sch input_root output_root threads w w0 Hmk Hne Hthreads).
  cbn [snd fs set_stdout].
  destruct (run_tasks_recovers input_root output_root
              (completion_order sch (find_pdfs (fs w0) input_root))
              (set_stdout
                 (stdout w0 ++ banner (find_pdfs (fs w0) input_root) output_root threads)
                 w0) q)
    as (doc & rel & Hdoc & Hrel & Hfinal); [| |done|].
  - rewrite (completion_perm sch). apply NoDup_find_pdfs.
  - intros q' Hq'. apply Hout. by rewrite <- (completion_perm sch).
  - exists doc, rel. split_and!; [|by apply strip_prefix_spec|done].
    cbn [fs set_stdout] in Hdoc.
    apply mkdir_ok in Hmk as (_ & Hg & _).
    destruct (fs w !! q) as [x|] eqn:Hx.
    + rewrite (grows_old _ _ Hg _ _ Hx) in Hdoc. congruence.
    + rewrite (grows_new _ _ Hg q Hx) in Hdoc; [done |]. by rewrite Hdoc.
Qed.

Lemma main_recovered_files_hold_text_witness :
  fs (snd (main in_reverse (P ["in"]) (P ["out"]) 2 scenario))
     !! P ["out"; "a_RECOVERED.txt"]
  = Some (File (Raw (render_pages [str "CONFIDENTIAL"; []]))).
Proof.
  destruct (main_recovered_files_hold_text in_reverse (P ["in"]) (P ["out"]) 2 scenario
              (snd (mkdir (P ["out"]) scenario)) (P ["in"; "a.pdf"]))
    as (doc & rel & Hdoc & Hrel & Hfinal).
  - vm_compute. reflexivity.
  - lia.
  - apply list_elem_of_In. vm_compute. auto.
  - intros q' Hq'.
    assert (find_pdfs (fs (snd (mkdir (P ["out"]) scenario))) (P ["in"])
            = [P ["in"; "b.pdf"]; P ["in"; "a.pdf"]]) as Hpdfs
      by (vm_compute; reflexivity).
    rewrite Hpdfs in Hq'. apply list_elem_of_In in Hq'.
    destruct Hq' as [<-|[<-|[]]]; intros Hne.
    + vm_compute. discriminate.
    + by destruct Hne.
  - assert (rel = [str "a.pdf"]) as ->
      by (apply (app_inv_head (P ["in"])); symmetry; exact Hrel).
    assert (fs scenario !! P ["in"; "a.pdf"] = Some (File (Pdf a_pdf))) as Hlook
      by (vm_compute; reflexivity).
    rewrite Hlook in Hdoc. injection Hdoc as <-.
    assert ((P ["out"] ++ parent [str "a.pdf"]) ++ [out_name (P ["in"; "a.pdf"])]
            = P ["out"; "a_RECOVERED.txt"]) as Hkey by (vm_compute; reflexivity).
    assert (render_pages (page_texts a_pdf) = render_pages [str "CONFIDENTIAL"; []])
      as Htext by (vm_compute; reflexivity).
    rewrite Hkey, Htext in Hfinal. exact Hfinal.
Defined.
